(** * react-d3-graph: the link path helper (Link/helper, Link/const)

    A shallow embedding of [buildLinkPathDefinition] and of the helpers and
    constants it uses, with the properties of the link geometry proved on it.

    Conventions of the embedding.
    - A JS number is a real number ([R]): arithmetic is exact, and there is
      no NaN, no infinity and no signed zero.  [Math.sin], [Math.cos],
      [Math.sqrt] and [Math.PI] are the functions and the constant of the
      real numbers; [Math.atan2] is [Math_atan2] below.
    - A string is a [string]; a template literal is a concatenation in
      which a number is converted by [Number_toString].
    - An object used as a table ([LINE_TYPES], [RADIUS_STRATEGIES]) is a
      [gmap] from property names to values, read with [getProp], which
      also sees the properties every object inherits.
    - A parameter with a default value is an [option]: [None] is the
      argument left out (or [undefined]).
    - A computation that can throw returns an [option]: [None] is the
      [TypeError] (or a value outside the numbers, see [callRadius]). *)

From Stdlib Require Import Reals Lra ZArith Ascii.
From stdpp Require Import base option strings list gmap pretty.

Local Open Scope R_scope.

(** ** The host: numbers, property reads *)

Module JS.

#[global] Instance R_eq_dec : EqDecision R := Req_dec_T.
#[global] Instance Rgt_decision (a b : R) : Decision (a > b) := Rgt_dec a b.
#[global] Instance Rlt_decision (a b : R) : Decision (a < b) := Rlt_dec a b.

(** [Math.atan2(y, x)] on the real numbers: the angle of the vector (x, y)
    in (-π, π], and 0 for the null vector, as ECMAScript has it
    ([Math.atan2(0, 0)] is 0). *)
Definition Math_atan2 (y x : R) : R :=
  if decide (0 < x) then atan (y / x)
  else if decide (x < 0) then
    (if decide (y < 0) then atan (y / x) - PI else atan (y / x) + PI)
  else if decide (0 < y) then PI / 2
  else if decide (y < 0) then - PI / 2
  else 0.

(** The largest magnitude up to which every integer is a JS number
    (2^53, one more than [Number.MAX_SAFE_INTEGER]). *)
Definition MAX_EXACT_INTEGER : Z := 2 ^ 53.

Section NumberToString.

(** The decimal text of a number that is not an integer of magnitude at
    most 2^53 (the shortest digits that read back as the same double):
    outside what the real numbers describe, hence a parameter. *)
Variable decimalText : R -> string.

(** [Number::toString]: an integer of magnitude at most 2^53 prints as
    its decimal digits, with a leading [-] when negative. *)
Definition Number_toString (r : R) : string :=
  let z := Int_part r in
  if decide (IZR z = r) then
    if decide (Z.abs z <= MAX_EXACT_INTEGER)%Z then pretty z
    else decimalText r
  else decimalText r.

End NumberToString.

(** The names every object inherits from [Object.prototype]. *)
Definition Object_prototype_keys : list string :=
  [ "constructor"; "hasOwnProperty"; "isPrototypeOf"; "propertyIsEnumerable";
    "toLocaleString"; "toString"; "valueOf"; "__proto__";
    "__defineGetter__"; "__defineSetter__"; "__lookupGetter__";
    "__lookupSetter__" ].

(** The result of reading [obj[key]]: a property of the object itself, a
    built-in inherited from [Object.prototype] (an object or a function,
    named by its key), or [undefined]. *)
Inductive propRead (V : Type) : Type :=
  | Own (v : V)
  | Inherited (key : string)
  | Undefined.
Arguments Own {V} v.
Arguments Inherited {V} key.
Arguments Undefined {V}.

Definition getProp {V : Type} (obj : gmap string V) (key : string) : propRead V :=
  match obj !! key with
  | Some v => Own v
  | None =>
      if decide (key ∈ Object_prototype_keys) then Inherited key else Undefined
  end.

(** The text of an inherited built-in when it is used as a property name:
    [String(Object.prototype)] for [__proto__], the source text of a native
    function otherwise ([constructor] is the function [Object]). *)
Definition builtinToString (key : string) : string :=
  if decide (key = "__proto__") then "[object Object]"
  else "function "
       +:+ (if decide (key = "constructor") then "Object" else key)
       +:+ "() { [native code] }".

(** Truthiness of a string: every string but the empty one. *)
Definition truthy (s : string) : bool := negb (String.eqb s "").

End JS.

Import JS.

(** ** Link/const *)

Module LinkConst.

(** [LINE_TYPES.STRAIGHT], [LINE_TYPES.CURVE_SMOOTH], [LINE_TYPES.CURVE_FULL] *)
Definition STRAIGHT : string := "STRAIGHT".
Definition CURVE_SMOOTH : string := "CURVE_SMOOTH".
Definition CURVE_FULL : string := "CURVE_FULL".

(** The object [LINE_TYPES], for the reads [LINE_TYPES[type]]. *)
Definition LINE_TYPES : gmap string string :=
  {[ "STRAIGHT" := STRAIGHT;
     "CURVE_SMOOTH" := CURVE_SMOOTH;
     "CURVE_FULL" := CURVE_FULL ]}.

(** Offset, in pixels, by which a line is shifted to prevent collision
    between links in opposite directions. *)
Definition LINE_POS_OFFSET : R := 3.

(** Modelled from the spec: [SELF_LINK_DIRECTION], which Link/helper imports
    from Link/const and Link/const does not declare.  The spec names its four
    members and not their values, so the values are the fields of a record
    that the helper takes as a parameter. *)
Record SelfLinkDirection : Type := {
  TOP_LEFT : string;
  TOP_RIGHT : string;
  BOTTOM_LEFT : string;
  BOTTOM_RIGHT : string
}.

End LinkConst.

Import LinkConst.

(** ** Link/helper *)

Module LinkHelper.

(** A point: an object with numeric fields [x] and [y]. *)
Record Coords : Type := { x : R; y : R }.

(** A node id: a number or a string; [===] never equates the two. *)
Inductive nodeId : Type :=
  | IdNumber (n : R)
  | IdString (s : string).

#[global] Instance nodeId_eq_dec : EqDecision nodeId.
Proof. solve_decision. Defined.

(** A radius strategy is called with the four coordinates of a segment. *)
Definition radiusStrategy : Type := R -> R -> R -> R -> R.

(** Radius for a straight line (the function takes no parameter: the four
    arguments of the call are ignored). *)
Definition straightLineRadius : radiusStrategy := fun _ _ _ _ => 0.

(** Radius for a smooth curve effect. *)
Definition smoothCurveRadius : radiusStrategy := fun x1 y1 x2 y2 =>
  let dx := x2 - x1 in
  let dy := y2 - y1 in
  sqrt (dx * dx + dy * dy).

(** Radius for a full curve (semi circumference). *)
Definition fullCurveRadius : radiusStrategy := fun _ _ _ _ => 1.

Definition RADIUS_STRATEGIES : gmap string radiusStrategy :=
  {[ STRAIGHT := straightLineRadius;
     CURVE_SMOOTH := smoothCurveRadius;
     CURVE_FULL := fullCurveRadius ]}.

(** The value of [LINE_TYPES[type] || LINE_TYPES.STRAIGHT]: the name of a
    line type, or a built-in that the read inherited. *)
Inductive lineTypeValue : Type :=
  | TypeName (s : string)
  | TypeBuiltin (key : string).

(** What [getRadiusStrategy] returns: one of the three strategies, an
    inherited built-in function, or [undefined]. *)
Inductive callee : Type :=
  | RadiusFn (f : radiusStrategy)
  | BuiltinFn (key : string)
  | UndefinedFn.

(** The property name a value stands for in [RADIUS_STRATEGIES[type]]. *)
Definition toPropertyKey (v : lineTypeValue) : string :=
  match v with
  | TypeName s => s
  | TypeBuiltin key => builtinToString key
  end.

(** [RADIUS_STRATEGIES[type] || RADIUS_STRATEGIES[LINE_TYPES.STRAIGHT]]:
    functions are truthy, [undefined] is not. *)
Definition getRadiusStrategy (type : lineTypeValue) : callee :=
  match getProp RADIUS_STRATEGIES (toPropertyKey type) with
  | Own f => RadiusFn f
  | Inherited key => BuiltinFn key
  | Undefined =>
      match getProp RADIUS_STRATEGIES STRAIGHT with
      | Own f => RadiusFn f
      | Inherited key => BuiltinFn key
      | Undefined => UndefinedFn
      end
  end.

(** The call [calcRadiusFn(x1, y1, x2, y2)], whose result the path prints
    as a number: calling [undefined] throws, and what a built-in returns is
    not a number. *)
Definition callRadius (fn : callee) (x1 y1 x2 y2 : R) : option R :=
  match fn with
  | RadiusFn f => Some (f x1 y1 x2 y2)
  | BuiltinFn _ | UndefinedFn => None
  end.

(** The angle between the line defined by the given points and the X axis. *)
Definition angleBetweenPoints (x1 y1 x2 y2 : R) : R :=
  if decide (x1 = x2) then
    if decide (y1 > y2) then - PI / 2
    else PI / 2
  else Math_atan2 (y2 - y1) (x2 - x1).

Section BuildLinkPath.

Variable decimalText : R -> string.
Variable SELF_LINK_DIRECTION : SelfLinkDirection.

(** A number inside a template literal. *)
Definition str (r : R) : string := Number_toString decimalText r.

(** [LINE_TYPES[type] || LINE_TYPES.STRAIGHT] *)
Definition validTypeOf (type : string) : lineTypeValue :=
  match getProp LINE_TYPES type with
  | Own s => if truthy s then TypeName s else TypeName STRAIGHT
  | Inherited key => TypeBuiltin key
  | Undefined => TypeName STRAIGHT
  end.

(** The callback of [restOfLinkPoints.map]: the arc that ends the segment
    from the previous point to [{x, y}], the [i]-th of
    [restOfLinkPoints]. *)
Definition arcOfPoint (calcRadiusFn : callee) (sourceCoords : Coords)
    (restOfLinkPoints : list Coords) (i : nat) (pt : Coords) : option string :=
  let '{| x := x; y := y |} := pt in
  prev ← (if decide (0 < i)%nat then restOfLinkPoints !! (i - 1)%nat
          else Some sourceCoords);
  let '{| x := px; y := py |} := prev in
  (* Shift the line along its normal to prevent collision *)
  let offsetsX := LINE_POS_OFFSET * sin (angleBetweenPoints px py x y) in
  let offsetsY := LINE_POS_OFFSET * - cos (angleBetweenPoints px py x y) in
  let sxOffset := px + offsetsX in
  let syOffset := py + offsetsY in
  let txOffset := x + offsetsX in
  let tyOffset := y + offsetsY in
  radius ← callRadius calcRadiusFn sxOffset syOffset txOffset tyOffset;
  Some (" A" +:+ str radius +:+ "," +:+ str radius +:+ " 0 0,1 "
        +:+ str offsetsX +:+ "," +:+ str offsetsY).

(** The path definition for a given link, from the line type and the
    link source and target. *)
Definition buildLinkPathDefinition (sourceCoords targetCoords : Coords)
    (type : option string) (breakPoints : list Coords)
    (sourceId targetId : nodeId) (selfLinkDirection : option string)
    : option string :=
  let type := default STRAIGHT type in
  let selfLinkDirection :=
    default (TOP_RIGHT SELF_LINK_DIRECTION) selfLinkDirection in
  let '{| x := sx; y := sy |} := sourceCoords in
  let '{| x := tx; y := ty |} := targetCoords in
  if decide (sourceId = targetId ∧ sx = tx ∧ sy = ty) then
    if decide (selfLinkDirection = TOP_LEFT SELF_LINK_DIRECTION) then
      Some ("M" +:+ str sx +:+ "," +:+ str sy +:+ " A40,30 45 1,1 "
            +:+ str (tx + 1) +:+ "," +:+ str (ty - 1))
    else if decide (selfLinkDirection = BOTTOM_LEFT SELF_LINK_DIRECTION) then
      Some ("M" +:+ str sx +:+ "," +:+ str sy +:+ " A40,30 -45 1,1 "
            +:+ str (tx - 1) +:+ "," +:+ str (ty - 1))
    else if decide (selfLinkDirection = BOTTOM_RIGHT SELF_LINK_DIRECTION) then
      Some ("M" +:+ str sx +:+ "," +:+ str sy +:+ " A40,30 45 1,1 "
            +:+ str (tx - 1) +:+ "," +:+ str (ty + 1))
    else
      Some ("M" +:+ str sx +:+ "," +:+ str sy +:+ " A40,30 -45 1,1 "
            +:+ str (tx + 1) +:+ "," +:+ str (ty + 1))
  else
    let validType := validTypeOf type in
    let calcRadiusFn := getRadiusStrategy validType in
    let restOfLinkPoints := breakPoints ++ [targetCoords] in
    restOfLinkPath ←
      String.concat "" <$>
        mapM (fun arc => arc)
             (imap (arcOfPoint calcRadiusFn sourceCoords restOfLinkPoints)
                   restOfLinkPoints);
    let offsetX := LINE_POS_OFFSET * sin (angleBetweenPoints sx sy tx ty) in
    let offsetY := LINE_POS_OFFSET * - cos (angleBetweenPoints sx sy tx ty) in
    let sxReal := sx + offsetX in
    let syReal := sy + offsetY in
    let txReal := tx + offsetX in
    let tyReal := ty + offsetY in
    let midX := (txReal - sxReal) * 0.9 + sxReal in
    let midY := (tyReal - syReal) * 0.9 + syReal in
    Some ("M" +:+ str sxReal +:+ "," +:+ str syReal
          +:+ "L" +:+ str midX +:+ "," +:+ str midY +:+ restOfLinkPath).

End BuildLinkPath.

End LinkHelper.

Import LinkHelper.

(** ** The path mini-language

    A reader of path definitions, written from the format and not from the
    helper: [M x,y] (move), [L x,y] (line) and
    [A rx,ry rotation large-arc,sweep x,y] (arc), the numbers separated by
    commas or spaces. *)

Module SvgPath.

Inductive token : Type :=
  | TCmd (c : ascii)
  | TNum (s : string).

Inductive pathCommand : Type :=
  | MoveTo (px py : string)
  | LineTo (px py : string)
  | ArcTo (rx ry rotation : string) (largeArc sweep : bool) (px py : string).

Definition isDigit (c : ascii) : bool :=
  match c with
  | "0" | "1" | "2" | "3" | "4" | "5" | "6" | "7" | "8" | "9" => true
  | _ => false
  end%char.

Definition isNumberChar (c : ascii) : bool :=
  isDigit c
  || match c with "-" | "+" | "." | "e" => true | _ => false end%char.

Definition isSeparator (c : ascii) : bool :=
  match c with " " | "," => true | _ => false end%char.

Definition isCommand (c : ascii) : bool :=
  match c with "M" | "L" | "A" => true | _ => false end%char.

(** The number read so far, if any, becomes a token. *)
Definition flush (cur : string) (ts : list token) : list token :=
  match cur with
  | "" => ts
  | _ => TNum cur :: ts
  end.

(** [tokenize cur s]: the tokens of [s], where [cur] holds the characters
    of the number being read. *)
Fixpoint tokenize (cur : string) (s : string) : option (list token) :=
  match s with
  | "" => Some (flush cur [])
  | String c s' =>
      if isNumberChar c then tokenize (cur +:+ String c "") s'
      else if isSeparator c then flush cur <$> tokenize "" s'
      else if isCommand c then
        (fun ts => flush cur (TCmd c :: ts)) <$> tokenize "" s'
      else None
  end.

Fixpoint allChars (p : ascii -> bool) (s : string) : bool :=
  match s with
  | "" => true
  | String c s' => p c && allChars p s'
  end.

(** One digit or more. *)
Definition isDigits (s : string) : bool :=
  match s with
  | "" => false
  | _ => allChars isDigit s
  end.

(** [splitAt c s]: the text before the first [c] of [s], and the text after
    it when there is one. *)
Fixpoint splitAt (c : ascii) (s : string) : string * option string :=
  match s with
  | "" => ("", None)
  | String a s' =>
      if decide (a = c) then ("", Some s')
      else let '(before, after) := splitAt c s' in (String a before, after)
  end.

Definition dropSign (s : string) : string :=
  match s with
  | String "-" s' => s'
  | String "+" s' => s'
  | _ => s
  end.

(** A number: an optional minus sign, digits, an optional fraction, an
    optional exponent with an optional sign. *)
Definition isNumberLiteral (s : string) : bool :=
  let unsigned := match s with String "-" s' => s' | _ => s end in
  let '(mantissa, exponent) := splitAt "e" unsigned in
  let '(whole, fraction) := splitAt "." mantissa in
  isDigits whole
  && from_option isDigits true fraction
  && from_option (fun e => isDigits (dropSign e)) true exponent.

Definition number (s : string) : option string :=
  if isNumberLiteral s then Some s else None.

Definition flag (s : string) : option bool :=
  if decide (s = "0") then Some false
  else if decide (s = "1") then Some true
  else None.

Fixpoint parseCommands (ts : list token) : option (list pathCommand) :=
  match ts with
  | [] => Some []
  | TCmd "M" :: TNum a :: TNum b :: rest =>
      px ← number a; py ← number b;
      cmds ← parseCommands rest;
      Some (MoveTo px py :: cmds)
  | TCmd "L" :: TNum a :: TNum b :: rest =>
      px ← number a; py ← number b;
      cmds ← parseCommands rest;
      Some (LineTo px py :: cmds)
  | TCmd "A" :: TNum a :: TNum b :: TNum c :: TNum d :: TNum e :: TNum f
      :: TNum g :: rest =>
      rx ← number a; ry ← number b; rotation ← number c;
      largeArc ← flag d; sweep ← flag e;
      px ← number f; py ← number g;
      cmds ← parseCommands rest;
      Some (ArcTo rx ry rotation largeArc sweep px py :: cmds)
  | _ => None
  end.

(** The tokens of a command, and the numbers in it. *)
Definition flagText (b : bool) : string := if b then "1" else "0".

Definition commandTokens (cmd : pathCommand) : list token :=
  match cmd with
  | MoveTo px py => [TCmd "M"; TNum px; TNum py]
  | LineTo px py => [TCmd "L"; TNum px; TNum py]
  | ArcTo rx ry rotation largeArc sweep px py =>
      [TCmd "A"; TNum rx; TNum ry; TNum rotation; TNum (flagText largeArc);
       TNum (flagText sweep); TNum px; TNum py]
  end.

Definition commandNumbers (cmd : pathCommand) : list string :=
  match cmd with
  | MoveTo px py | LineTo px py => [px; py]
  | ArcTo rx ry rotation _ _ px py => [rx; ry; rotation; px; py]
  end.

(** The commands of a path definition; [None] when the text is not one. *)
Definition parsePath (s : string) : option (list pathCommand) :=
  tokenize "" s ≫= parseCommands.

(** A path definition is well formed when it reads as commands of which
    the first is a move. *)
Definition wellFormedPath (s : string) : bool :=
  match parsePath s with
  | Some (MoveTo _ _ :: _) => true
  | _ => false
  end.

End SvgPath.

Import SvgPath.

(** ** The emitted paths, described *)

Module LinkPathSpec.

(** The guard of the self-link branch. *)
Definition isSelfLink (s t : Coords) (sid tid : nodeId) : Prop :=
  sid = tid ∧ x s = x t ∧ y s = y t.

(** The radius strategy of a line type name. *)
Definition strategyFor (type : string) : radiusStrategy :=
  if decide (type = CURVE_SMOOTH) then smoothCurveRadius
  else if decide (type = CURVE_FULL) then fullCurveRadius
  else straightLineRadius.

(** The Euclidean distance between (x1, y1) and (x2, y2). *)
Definition distance (x1 y1 x2 y2 : R) : R :=
  sqrt ((x2 - x1)² + (y2 - y1)²).

(** The displacement of magnitude [LINE_POS_OFFSET] along the direction
    (sin θ, -cos θ). *)
Definition offsetAt (theta : R) : R * R :=
  (LINE_POS_OFFSET * sin theta, - LINE_POS_OFFSET * cos theta).

(** The anti-collision offset of the segment from [p] to [c]. *)
Definition normalOffset (p c : Coords) : R * R :=
  offsetAt (angleBetweenPoints (x p) (y p) (x c) (y c)).

(** The segments of a link: each point of [pts] with the point before it,
    the first one with [s]. *)
Definition segments (s : Coords) (pts : list Coords) : list (Coords * Coords) :=
  zip (s :: pts) pts.

Section PathText.

Variable decimalText : R -> string.

Definition moveTo (px py : R) : string :=
  "M" +:+ str decimalText px +:+ "," +:+ str decimalText py.

Definition lineTo (px py : R) : string :=
  "L" +:+ str decimalText px +:+ "," +:+ str decimalText py.

Definition arcTo (rx ry ex ey : R) : string :=
  " A" +:+ str decimalText rx +:+ "," +:+ str decimalText ry +:+ " 0 0,1 "
  +:+ str decimalText ex +:+ "," +:+ str decimalText ey.

(** The arc of a segment: its radius is the strategy's, at the offset
    endpoints of the segment. *)
Definition arcRadius (f : radiusStrategy) (seg : Coords * Coords) : R :=
  let '(p, c) := seg in
  let '(ox, oy) := normalOffset p c in
  f (x p + ox) (y p + oy) (x c + ox) (y c + oy).

(** Where the arc of a segment ends in the emitted path: at the offset
    of the segment. *)
Definition arcEnd (seg : Coords * Coords) : R * R :=
  normalOffset seg.1 seg.2.

Definition arcOfSegment (f : radiusStrategy) (seg : Coords * Coords) : string :=
  arcTo (arcRadius f seg) (arcRadius f seg) (arcEnd seg).1 (arcEnd seg).2.

(** The coordinate at 90% of the way from [a] to [b]. *)
Definition ninetyPercent (a b : R) : R := a + 0.9 * (b - a).

(** The path of a link that is not a self-link. *)
Definition regularPath (f : radiusStrategy) (s t : Coords)
    (bps : list Coords) : string :=
  let '(ox, oy) := normalOffset s t in
  moveTo (x s + ox) (y s + oy)
  +:+ lineTo (ninetyPercent (x s + ox) (x t + ox))
             (ninetyPercent (y s + oy) (y t + oy))
  +:+ String.concat "" (arcOfSegment f <$> segments s (bps ++ [t])).

(** The arc of a self-link: rotation [rot], end point (x + dx, y + dy). *)
Definition selfLinkPath (c : Coords) (rot : string) (dx dy : R) : string :=
  "M" +:+ str decimalText (x c) +:+ "," +:+ str decimalText (y c)
  +:+ " A40,30 " +:+ rot +:+ " 1,1 "
  +:+ str decimalText (x c + dx) +:+ "," +:+ str decimalText (y c + dy).

(** The commands of the path of a regular link, as text. *)
Definition arcCommand (f : radiusStrategy) (seg : Coords * Coords) : pathCommand :=
  ArcTo (str decimalText (arcRadius f seg)) (str decimalText (arcRadius f seg))
        "0" false true
        (str decimalText (arcEnd seg).1) (str decimalText (arcEnd seg).2).

(** The distance between the offset endpoints of a segment. *)
Definition offsetEndpointsDistance (seg : Coords * Coords) : R :=
  let '(p, c) := seg in
  let '(ox, oy) := normalOffset p c in
  distance (x p + ox) (y p + oy) (x c + ox) (y c + oy).

(** The commands of the path of a link that is not a self-link. *)
Definition regularCommands (f : radiusStrategy) (s t : Coords)
    (bps : list Coords) : list pathCommand :=
  let '(ox, oy) := normalOffset s t in
  MoveTo (str decimalText (x s + ox)) (str decimalText (y s + oy))
  :: LineTo (str decimalText (ninetyPercent (x s + ox) (x t + ox)))
            (str decimalText (ninetyPercent (y s + oy) (y t + oy)))
  :: (arcCommand f <$> segments s (bps ++ [t])).

(** The commands of the path of a self-link. *)
Definition selfLinkCommands (c : Coords) (rot : string) (dx dy : R)
    : list pathCommand :=
  [ MoveTo (str decimalText (x c)) (str decimalText (y c));
    ArcTo "40" "30" rot true true
          (str decimalText (x c + dx)) (str decimalText (y c + dy)) ].

End PathText.

(** Values for the parameters, for the examples: the four directions named
    after themselves, and a decimal text that is a number. *)
Definition directionNames : SelfLinkDirection :=
  {| TOP_LEFT := "TOP_LEFT"; TOP_RIGHT := "TOP_RIGHT";
     BOTTOM_LEFT := "BOTTOM_LEFT"; BOTTOM_RIGHT := "BOTTOM_RIGHT" |}.

Definition sampleDecimalText : R -> string := fun _ => "0.5".

(** The arcs of a returned path: its commands after the move and the
    line. *)
Definition arcsOfPath (out : option string) : option (list pathCommand) :=
  path ← out; cmds ← parsePath path; Some (drop 2 cmds).

End LinkPathSpec.

Import LinkPathSpec.

(** * Properties *)

(** ** The host *)

Module JSFacts.

Lemma Int_part_IZR (z : Z) : Int_part (IZR z) = z.
Proof. symmetry. apply Int_part_spec. lra. Qed.

(** An integer of magnitude at most 2^53 prints as its digits. *)
Lemma Number_toString_IZR (d : R -> string) (z : Z) :
  (Z.abs z <= MAX_EXACT_INTEGER)%Z -> Number_toString d (IZR z) = pretty z.
Proof.
  intros Hz. unfold Number_toString. rewrite Int_part_IZR.
  rewrite decide_True by done. by rewrite decide_True.
Qed.

Lemma hypot_factor (a b : R) :
  a ≠ 0 -> sqrt (a² + b²) = Rabs a * sqrt (1 + (b / a)²).
Proof.
  intros Ha. rewrite <- sqrt_Rsqr_abs, <- sqrt_mult.
  - f_equal. unfold Rsqr. field. exact Ha.
  - apply Rle_0_sqr.
  - pose proof (Rle_0_sqr (b / a)). lra.
Qed.

Lemma sqrt_1_sqr_pos (t : R) : 0 < sqrt (1 + t²).
Proof. apply sqrt_lt_R0. pose proof (Rle_0_sqr t). lra. Qed.

(** [Math_atan2 b a] is the angle of the vector (a, b): the vector is its
    length times (cos, sin) of the angle. *)
Lemma Math_atan2_direction (b a : R) :
  a ≠ 0 ∨ b ≠ 0 ->
  sqrt (a² + b²) * cos (Math_atan2 b a) = a ∧
  sqrt (a² + b²) * sin (Math_atan2 b a) = b.
Proof.
  intros Hne. unfold Math_atan2.
  pose proof (sqrt_1_sqr_pos (b / a)) as Hs.
  destruct (decide (0 < a)) as [Hpos | Hnpos].
  - rewrite hypot_factor, Rabs_pos_eq, cos_atan, sin_atan by lra.
    split; field; lra.
  - destruct (decide (a < 0)) as [Hneg | Hnneg].
    + rewrite hypot_factor, Rabs_left by lra.
      destruct (decide (b < 0)).
      * rewrite cos_minus, sin_minus, cos_PI, sin_PI, cos_atan, sin_atan.
        split; field; lra.
      * rewrite cos_plus, sin_plus, cos_PI, sin_PI, cos_atan, sin_atan.
        split; field; lra.
    + assert (a = 0) as -> by lra.
      assert (Hb : b ≠ 0) by (destruct Hne; [ lra | done ]).
      replace (0² + b²) with (b²) by (unfold Rsqr; ring).
      rewrite sqrt_Rsqr_abs.
      destruct (decide (0 < b)) as [Hbpos | Hbnpos].
      * rewrite Rabs_pos_eq, cos_PI2, sin_PI2 by lra. lra.
      * rewrite decide_True by lra. rewrite Rabs_left by lra.
        replace (- PI / 2) with (- (PI / 2)) by lra.
        rewrite cos_neg, sin_neg, cos_PI2, sin_PI2. lra.
Qed.

(** ... and it lies in (-π, π]. *)
Lemma Math_atan2_range (b a : R) : - PI < Math_atan2 b a <= PI.
Proof.
  unfold Math_atan2. pose proof PI_RGT_0 as Hpi.
  pose proof (atan_bound (b / a)) as Hb.
  repeat case_decide; try lra.
  - assert (0 < b / a).
    { unfold Rdiv. replace (b * / a) with ((- b) * / (- a)) by (field; lra).
      apply Rmult_lt_0_compat; [ lra | apply Rinv_0_lt_compat; lra ]. }
    pose proof (atan_increasing 0 (b / a)) as Hi. rewrite atan_0 in Hi. lra.
  - assert (b / a <= 0).
    { unfold Rdiv. replace (b * / a) with (- (b * / (- a))) by (field; lra).
      assert (0 <= b * / - a); [ | lra ].
      apply Rmult_le_pos; [ lra | ]. apply Rlt_le, Rinv_0_lt_compat. lra. }
    destruct (Req_dec (b / a) 0) as [-> | Hnz].
    + rewrite atan_0. lra.
    + pose proof (atan_increasing (b / a) 0) as Hi. rewrite atan_0 in Hi. lra.
Qed.

Lemma Math_atan2_origin : Math_atan2 0 0 = 0.
Proof. unfold Math_atan2. repeat case_decide; lra. Qed.

Lemma Math_atan2_vertical (b : R) :
  b ≠ 0 -> Math_atan2 b 0 = if decide (b < 0) then - PI / 2 else PI / 2.
Proof. intros Hb. unfold Math_atan2. repeat case_decide; lra. Qed.

Lemma Math_atan2_positive_axis (a : R) : 0 < a -> Math_atan2 0 a = 0.
Proof.
  intros Ha. unfold Math_atan2. rewrite decide_True by done.
  replace (0 / a) with 0 by (field; lra). apply atan_0.
Qed.

Lemma string_app_assoc (a b c : string) : (a +:+ b) +:+ c = a +:+ (b +:+ c).
Proof.
  induction a as [|ch a IH]; [ reflexivity | ].
  change (String ch ((a +:+ b) +:+ c) = String ch (a +:+ (b +:+ c))).
  by rewrite IH.
Qed.

Lemma string_app_nil_r (a : string) : a +:+ "" = a.
Proof.
  induction a as [|ch a IH]; [ reflexivity | ].
  change (String ch (a +:+ "") = String ch a). by rewrite IH.
Qed.

Lemma string_app_cons (ch : ascii) (a b : string) :
  String ch a +:+ b = String ch (a +:+ b).
Proof. reflexivity. Qed.

Lemma string_app_nil_l (b : string) : "" +:+ b = b.
Proof. reflexivity. Qed.

Lemma concat_cons (a : string) (l : list string) :
  String.concat "" (a :: l) = a +:+ String.concat "" l.
Proof. destruct l; simpl; [ by rewrite string_app_nil_r | done ]. Qed.

End JSFacts.

Import JSFacts.

(** ** The path reader *)

Module SvgPathFacts.

#[local] Arguments flush : simpl never.

Lemma allChars_app (p : ascii -> bool) (a b : string) :
  allChars p (a +:+ b) = allChars p a && allChars p b.
Proof.
  induction a as [|ch a IH]; [ reflexivity | ].
  rewrite string_app_cons. simpl. rewrite IH. by rewrite andb_assoc.
Qed.

Lemma allChars_impl (p q : ascii -> bool) (s : string) :
  (forall c, p c = true -> q c = true) ->
  allChars p s = true -> allChars q s = true.
Proof.
  intros Hpq. induction s as [|ch s IH]; simpl; [ done | ].
  intros [Hc Hs]%andb_prop. rewrite (Hpq _ Hc). by apply IH.
Qed.

Lemma isDigit_isNumberChar (c : ascii) : isDigit c = true -> isNumberChar c = true.
Proof. unfold isNumberChar. by intros ->. Qed.

Lemma splitAt_eq (c : ascii) (s : string) :
  s = match splitAt c s with
      | (before, None) => before
      | (before, Some after) => before +:+ String c after
      end.
Proof.
  induction s as [|a s IH]; simpl; [ done | ].
  destruct (decide (a = c)) as [-> | Hne]; [ done | ].
  destruct (splitAt c s) as [before [after|]]; rewrite ?string_app_cons;
    by rewrite <- IH.
Qed.

Lemma splitAt_absent (p : ascii -> bool) (c : ascii) (s : string) :
  p c = false -> allChars p s = true -> splitAt c s = (s, None).
Proof.
  intros Hc. induction s as [|a s IH]; simpl; [ done | ].
  intros [Ha Hs]%andb_prop. rewrite decide_False by congruence.
  by rewrite IH.
Qed.

Lemma isDigits_chars (s : string) :
  isDigits s = true -> s ≠ "" ∧ allChars isNumberChar s = true.
Proof.
  destruct s as [|a s]; [ done | ]. unfold isDigits. intros H. split; [ done | ].
  revert H. apply allChars_impl, isDigit_isNumberChar.
Qed.

(** A number is not empty, and the tokenizer reads it as one token. *)
Lemma isNumberLiteral_chars (s : string) :
  isNumberLiteral s = true -> s ≠ "" ∧ allChars isNumberChar s = true.
Proof.
  unfold isNumberLiteral.
  set (unsigned := match s with String "-" s' => s' | _ => s end).
  assert (Hu : (unsigned ≠ "" ∧ allChars isNumberChar unsigned = true) ->
               s ≠ "" ∧ allChars isNumberChar s = true).
  { subst unsigned. destruct s as [|a s]; [ done | ].
    destruct (decide (a = "-"%char)) as [-> | Hne].
    - intros [_ H]. split; [ done | ]. simpl. exact H.
    - by destruct a as [[][][][][][][][]]. }
  intros H. apply Hu. clear Hu. clearbody unsigned. revert H.
  pose proof (splitAt_eq "e" unsigned) as Ee.
  destruct (splitAt "e" unsigned) as [mantissa exponent].
  pose proof (splitAt_eq "." mantissa) as Ed.
  destruct (splitAt "." mantissa) as [whole fraction].
  rewrite Ee, Ed. clear Ee Ed.
  intros [[Hw Hf]%andb_prop He]%andb_prop.
  apply isDigits_chars in Hw as [Hw1 Hw2].
  set (m := match fraction with
            | Some after => whole +:+ String "." after
            | None => whole
            end).
  assert (Hm : m ≠ "" ∧ allChars isNumberChar m = true).
  { subst m. destruct fraction as [fr|]; simpl in Hf; [ | done ].
    apply isDigits_chars in Hf as [_ Hf]. split.
    - by destruct whole.
    - rewrite allChars_app, Hw2. simpl. exact Hf. }
  destruct Hm as [Hm1 Hm2].
  destruct exponent as [ex|]; simpl in He; [ | done ].
  apply isDigits_chars in He as [_ He]. split.
  - by destruct m.
  - rewrite allChars_app, Hm2. simpl.
    destruct ex as [|a ex]; [ done | ].
    destruct (decide (a = "-"%char)) as [-> | H1]; [ exact He | ].
    destruct (decide (a = "+"%char)) as [-> | H2]; [ exact He | ].
    revert He. by destruct a as [[][][][][][][][]].
Qed.

Lemma pretty_N_char_digit (n : N) : isDigit (pretty_N_char n) = true.
Proof. unfold pretty_N_char. by repeat case_match. Qed.

Lemma pretty_N_go_digits (n : N) (s : string) :
  isDigits s = true ∨ (s = "" ∧ (0 < n)%N) -> isDigits (pretty_N_go n s) = true.
Proof.
  revert s. induction (N.lt_wf_0 n) as [n _ IH]. intros s Hs.
  destruct (decide (n = 0%N)) as [-> | Hn].
  - rewrite pretty_N_go_0. destruct Hs as [Hs | [_ Hs]]; [ done | lia ].
  - rewrite pretty_N_go_step by lia. apply IH.
    + apply N.div_lt; lia.
    + left. unfold isDigits. simpl. rewrite pretty_N_char_digit. simpl.
      destruct Hs as [Hs | [-> _]]; [ | done ]. by destruct s.
Qed.

Lemma pretty_positive_digits (p : positive) : isDigits (pretty p) = true.
Proof.
  unfold pretty, pretty_positive, pretty, pretty_N.
  rewrite decide_False by done. apply pretty_N_go_digits. right.
  split; [ done | lia ].
Qed.

Lemma isNumberLiteral_digits (s : string) :
  isDigits s = true -> isNumberLiteral s = true.
Proof.
  intros Hs. unfold isNumberLiteral.
  assert (Ha : allChars isDigit s = true) by (by destruct s).
  assert (Hu : match s with String "-" s' => s' | _ => s end = s).
  { destruct s as [|a s]; [ done | ]. simpl in Ha.
    apply andb_prop in Ha as [Ha _]. by destruct a as [[][][][][][][][]]. }
  rewrite Hu, (splitAt_absent isDigit "e" s) by done.
  rewrite (splitAt_absent isDigit "." s) by done.
  simpl. by rewrite Hs.
Qed.

(** The digits of an integer are a number of the path language. *)
Lemma isNumberLiteral_pretty (z : Z) : isNumberLiteral (pretty z) = true.
Proof.
  destruct z as [|p|p]; unfold pretty, pretty_Z.
  - reflexivity.
  - apply isNumberLiteral_digits, pretty_positive_digits.
  - pose proof (pretty_positive_digits p) as Hp.
    rewrite string_app_cons, string_app_nil_l.
    unfold isNumberLiteral.
    rewrite (splitAt_absent isDigit "e" (pretty p)) by (by destruct (pretty p)).
    rewrite (splitAt_absent isDigit "." (pretty p)) by (by destruct (pretty p)).
    simpl. by rewrite Hp.
Qed.

Lemma isNumberLiteral_Number_toString (d : R -> string) (r : R) :
  (forall r', isNumberLiteral (d r') = true) ->
  isNumberLiteral (Number_toString d r) = true.
Proof.
  intros Hd. unfold Number_toString.
  repeat case_decide; auto using isNumberLiteral_pretty.
Qed.

Lemma flush_number (n : string) (ts : list token) :
  n ≠ "" -> flush n ts = TNum n :: ts.
Proof. by destruct n. Qed.

Lemma flush_nil (ts : list token) : flush "" ts = ts.
Proof. reflexivity. Qed.

Lemma tokenize_number (cur n rest : string) :
  allChars isNumberChar n = true ->
  tokenize cur (n +:+ rest) = tokenize (cur +:+ n) rest.
Proof.
  revert cur. induction n as [|c n IH]; intros cur Hn.
  - by rewrite string_app_nil_l, string_app_nil_r.
  - simpl in Hn. apply andb_prop in Hn as [Hc Hn].
    rewrite string_app_cons. simpl. rewrite Hc, IH by done.
    by rewrite string_app_assoc.
Qed.

Lemma tokenize_literal (n rest : string) :
  isNumberLiteral n = true -> tokenize "" (n +:+ rest) = tokenize n rest.
Proof.
  intros [_ Hn]%isNumberLiteral_chars. by rewrite tokenize_number.
Qed.

Lemma tokenize_literal_end (n : string) :
  isNumberLiteral n = true -> tokenize "" n = Some [TNum n].
Proof.
  intros Hn. rewrite <- (string_app_nil_r n) at 1.
  rewrite tokenize_literal by done. simpl.
  rewrite flush_number; [ done | by apply isNumberLiteral_chars ].
Qed.

(** Reading the tokens of commands gives the commands back. *)
Lemma parseCommands_tokens (cmds : list pathCommand) :
  Forall (fun cmd =>
            Forall (fun n => isNumberLiteral n = true) (commandNumbers cmd)) cmds ->
  parseCommands (cmds ≫= commandTokens) = Some cmds.
Proof.
  induction 1 as [|cmd cmds Hcmd _ IH]; [ done | ].
  destruct cmd as [a b | a b | a b c [] [] f g]; simpl in *;
    change (list_bind _ _ commandTokens cmds) with (cmds ≫= commandTokens);
    repeat match goal with
           | H : Forall _ (_ :: _) |- _ => apply Forall_cons in H as [? H]
           end;
    unfold number;
    repeat match goal with
           | H : isNumberLiteral _ = true |- _ => rewrite H; clear H
           end;
    simpl; by rewrite IH.
Qed.

End SvgPathFacts.

Import SvgPathFacts.

(** ** The helper *)

Module LinkHelperFacts.

#[local] Arguments flush : simpl never.

Lemma angleBetweenPoints_distinct (x1 y1 x2 y2 : R) :
  x1 ≠ x2 ∨ y1 ≠ y2 ->
  angleBetweenPoints x1 y1 x2 y2 = Math_atan2 (y2 - y1) (x2 - x1).
Proof.
  intros Hne. unfold angleBetweenPoints.
  destruct (decide (x1 = x2)) as [-> | Hx]; [ | done ].
  replace (x2 - x2) with 0 by lra.
  rewrite Math_atan2_vertical by (destruct Hne; [ done | lra ]).
  repeat case_decide; lra.
Qed.

Lemma angleBetweenPoints_coincident (a b : R) :
  angleBetweenPoints a b a b = PI / 2.
Proof.
  unfold angleBetweenPoints. rewrite decide_True by done.
  rewrite decide_False; [ done | lra ].
Qed.

Lemma LINE_TYPES_lookup_other (type : string) :
  type ≠ STRAIGHT -> type ≠ CURVE_SMOOTH -> type ≠ CURVE_FULL ->
  LINE_TYPES !! type = None.
Proof.
  intros H1 H2 H3. unfold LINE_TYPES.
  rewrite !lookup_insert_ne by done. by apply lookup_singleton_ne.
Qed.

(** A built-in that [LINE_TYPES[type]] inherited names no radius strategy. *)
Lemma getRadiusStrategy_builtin (key : string) :
  key ∈ Object_prototype_keys ->
  getRadiusStrategy (TypeBuiltin key) = RadiusFn straightLineRadius.
Proof.
  intros Hin. apply list_elem_of_In in Hin. simpl in Hin.
  repeat (destruct Hin as [<- | Hin]; [ vm_compute; reflexivity | ]).
  destruct Hin.
Qed.

(** The strategy that [buildLinkPathDefinition] calls, for every [type]. *)
Lemma strategy_selected (type : string) :
  getRadiusStrategy (validTypeOf type) = RadiusFn (strategyFor type).
Proof.
  unfold strategyFor.
  destruct (decide (type = CURVE_SMOOTH)) as [-> | Hs]; [ reflexivity | ].
  destruct (decide (type = CURVE_FULL)) as [-> | Hf]; [ reflexivity | ].
  destruct (decide (type = STRAIGHT)) as [-> | Hl]; [ reflexivity | ].
  unfold validTypeOf, getProp.
  rewrite LINE_TYPES_lookup_other by done.
  destruct (decide (type ∈ Object_prototype_keys)) as [Hin | Hout].
  - by apply getRadiusStrategy_builtin.
  - reflexivity.
Qed.

Lemma segments_length (s t : Coords) (bps : list Coords) :
  length (segments s (bps ++ [t])) = (length bps + 1)%nat.
Proof.
  unfold segments. rewrite length_zip_with, length_cons, length_app.
  cbn [length]. lia.
Qed.

Ltac flush_all tac :=
  rewrite ?string_app_nil_l;
  repeat first [ rewrite flush_nil | rewrite flush_number by (done || tac) ].

Section Path.

Variable decimalText : R -> string.
Variable SELF_LINK_DIRECTION : SelfLinkDirection.

Lemma str_IZR (z : Z) :
  (Z.abs z <= MAX_EXACT_INTEGER)%Z -> str decimalText (IZR z) = pretty z.
Proof. apply Number_toString_IZR. Qed.

Lemma arcOfPoint_Some (f : radiusStrategy) (s : Coords) (pts : list Coords)
    (i : nat) (p c : Coords) :
  (if decide (0 < i)%nat then pts !! (i - 1)%nat else Some s) = Some p ->
  arcOfPoint decimalText (RadiusFn f) s pts i c
  = Some (arcOfSegment decimalText f (p, c)).
Proof.
  intros Hp. unfold arcOfPoint. destruct c as [cx cy]. rewrite Hp.
  destruct p as [px py]. simpl.
  unfold arcOfSegment, arcRadius, arcEnd, normalOffset, offsetAt, arcTo. simpl.
  by replace (LINE_POS_OFFSET * - cos (angleBetweenPoints px py cx cy))
    with (- LINE_POS_OFFSET * cos (angleBetweenPoints px py cx cy)) by ring.
Qed.

(** Every point of [pts] has a point before it ([restOfLinkPoints[i - 1]]
    is never [undefined]), and its arc is the arc of its segment. *)
Lemma imap_arcOfPoint (f : radiusStrategy) (s : Coords) (pts : list Coords) :
  imap (arcOfPoint decimalText (RadiusFn f) s pts) pts
  = Some <$> (arcOfSegment decimalText f <$> segments s pts).
Proof.
  apply list_eq. intros i.
  rewrite list_lookup_imap, !list_lookup_fmap. unfold segments.
  rewrite lookup_zip_with.
  destruct (pts !! i) as [c|] eqn:Hc; simpl.
  - destruct i as [|i]; simpl.
    + f_equal. by apply arcOfPoint_Some.
    + assert (is_Some (pts !! i)) as [p Hp].
      { apply lookup_lt_is_Some. apply lookup_lt_Some in Hc. lia. }
      rewrite Hp. simpl. f_equal. apply arcOfPoint_Some.
      rewrite decide_True by lia. by replace (S i - 1)%nat with i by lia.
  - by destruct ((s :: pts) !! i).
Qed.

Lemma restOfLinkPath_Some (f : radiusStrategy) (s : Coords) (pts : list Coords) :
  mapM (fun arc => arc) (imap (arcOfPoint decimalText (RadiusFn f) s pts) pts)
  = Some (arcOfSegment decimalText f <$> segments s pts).
Proof. rewrite imap_arcOfPoint. by apply mapM_fmap_Some. Qed.

(** The helper returns, and returns the regular path, whenever the
    self-link guard fails. *)
Lemma regular_link_path (s t : Coords) (type : option string)
    (bps : list Coords) (sid tid : nodeId) (dir : option string) :
  ¬ isSelfLink s t sid tid ->
  buildLinkPathDefinition decimalText SELF_LINK_DIRECTION s t type bps sid tid dir
  = Some (regularPath decimalText (strategyFor (default STRAIGHT type)) s t bps).
Proof.
  intros Hns. unfold buildLinkPathDefinition, regularPath, isSelfLink in *.
  destruct s as [sx sy], t as [tx ty]. simpl in *.
  rewrite decide_False by done.
  rewrite strategy_selected, restOfLinkPath_Some. simpl.
  unfold normalOffset, offsetAt, moveTo, lineTo, ninetyPercent. simpl.
  rewrite !string_app_assoc.
  set (theta := angleBetweenPoints sx sy tx ty).
  replace (LINE_POS_OFFSET * - cos theta)
    with (- LINE_POS_OFFSET * cos theta) by ring.
  set (ox := LINE_POS_OFFSET * sin theta).
  set (oy := - LINE_POS_OFFSET * cos theta).
  replace ((tx + ox - (sx + ox)) * 0.9 + (sx + ox))
    with (sx + ox + 0.9 * (tx + ox - (sx + ox))) by ring.
  by replace ((ty + oy - (sy + oy)) * 0.9 + (sy + oy))
    with (sy + oy + 0.9 * (ty + oy - (sy + oy))) by ring.
Qed.

(** The self-link branch. *)
Lemma self_link_path (c : Coords) (type : option string) (bps : list Coords)
    (id : nodeId) (dir : option string) :
  let d := default (TOP_RIGHT SELF_LINK_DIRECTION) dir in
  buildLinkPathDefinition decimalText SELF_LINK_DIRECTION c c type bps id id dir
  = Some (if decide (d = TOP_LEFT SELF_LINK_DIRECTION)
          then selfLinkPath decimalText c "45" 1 (-1)
          else if decide (d = BOTTOM_LEFT SELF_LINK_DIRECTION)
          then selfLinkPath decimalText c "-45" (-1) (-1)
          else if decide (d = BOTTOM_RIGHT SELF_LINK_DIRECTION)
          then selfLinkPath decimalText c "45" (-1) 1
          else selfLinkPath decimalText c "-45" 1 1).
Proof.
  intros d. subst d. unfold buildLinkPathDefinition, selfLinkPath.
  destruct c as [cx cy]. simpl. rewrite decide_True by done.
  replace (cx - 1) with (cx + -1) by ring.
  replace (cy - 1) with (cy + -1) by ring.
  by repeat case_decide.
Qed.

Section Reading.

Hypothesis decimalText_literal :
  forall r, isNumberLiteral (decimalText r) = true.

Lemma str_literal (r : R) : isNumberLiteral (str decimalText r) = true.
Proof. by apply isNumberLiteral_Number_toString. Qed.

Lemma str_nonempty (r : R) : str decimalText r ≠ "".
Proof. apply isNumberLiteral_chars, str_literal. Qed.

Lemma tokenize_arcs (f : radiusStrategy) (segs : list (Coords * Coords))
    (last : string) :
  last ≠ "" ->
  tokenize last (String.concat "" (arcOfSegment decimalText f <$> segs))
  = Some (TNum last :: ((arcCommand decimalText f <$> segs) ≫= commandTokens)).
Proof.
  revert last. induction segs as [|seg segs IH]; intros last Hlast.
  - simpl. by rewrite flush_number.
  - rewrite !fmap_cons, concat_cons, bind_cons.
    unfold arcOfSegment at 1, arcTo.
    rewrite !string_app_assoc, !string_app_cons, !string_app_nil_l.
    simpl. rewrite !tokenize_literal by apply str_literal.
    simpl. rewrite !tokenize_literal by apply str_literal.
    simpl. rewrite !tokenize_literal by apply str_literal.
    simpl. rewrite !tokenize_literal by apply str_literal.
    rewrite IH by apply str_nonempty.
    simpl. flush_all ltac:(apply str_nonempty). reflexivity.
Qed.

Lemma tokenize_regularPath (f : radiusStrategy) (s t : Coords)
    (bps : list Coords) :
  tokenize "" (regularPath decimalText f s t bps)
  = Some (regularCommands decimalText f s t bps ≫= commandTokens).
Proof.
  unfold regularPath, regularCommands.
  destruct (normalOffset s t) as [ox oy]. unfold moveTo, lineTo.
  rewrite !string_app_assoc, !string_app_cons, !string_app_nil_l.
  simpl. rewrite !tokenize_literal by apply str_literal.
  simpl. rewrite !tokenize_literal by apply str_literal.
  simpl. rewrite !tokenize_literal by apply str_literal.
  simpl. rewrite !tokenize_literal by apply str_literal.
  rewrite tokenize_arcs by apply str_nonempty.
  simpl. flush_all ltac:(apply str_nonempty). reflexivity.
Qed.

Lemma arcCommand_numbers (f : radiusStrategy) (seg : Coords * Coords) :
  Forall (fun n => isNumberLiteral n = true)
         (commandNumbers (arcCommand decimalText f seg)).
Proof. unfold arcCommand. simpl. repeat constructor; apply str_literal. Qed.

(** The regular path reads as a move, a line and the arcs of its
    segments. *)
Lemma parsePath_regularPath (f : radiusStrategy) (s t : Coords)
    (bps : list Coords) :
  parsePath (regularPath decimalText f s t bps)
  = Some (regularCommands decimalText f s t bps).
Proof.
  unfold parsePath. rewrite tokenize_regularPath.
  apply parseCommands_tokens. unfold regularCommands.
  destruct (normalOffset s t) as [ox oy].
  repeat apply Forall_cons_2; simpl; repeat constructor;
    try apply str_literal.
  apply Forall_fmap, Forall_forall. intros seg _. apply arcCommand_numbers.
Qed.

(** The path of a self-link reads as a move and one arc. *)
Lemma parsePath_selfLinkPath (c : Coords) (rot : string) (dx dy : R) :
  rot = "45" ∨ rot = "-45" ->
  parsePath (selfLinkPath decimalText c rot dx dy)
  = Some (selfLinkCommands decimalText c rot dx dy).
Proof.
  intros Hrot. unfold parsePath, selfLinkPath.
  assert (Hr : isNumberLiteral rot = true) by (by destruct Hrot as [-> | ->]).
  assert (Hne : rot ≠ "") by (by destruct Hrot as [-> | ->]).
  assert (Ht : tokenize ""
                 ("M" +:+ str decimalText (x c) +:+ "," +:+ str decimalText (y c)
                  +:+ " A40,30 " +:+ rot +:+ " 1,1 "
                  +:+ str decimalText (x c + dx) +:+ ","
                  +:+ str decimalText (y c + dy))
               = Some (selfLinkCommands decimalText c rot dx dy ≫= commandTokens)).
  { rewrite !string_app_cons, !string_app_nil_l.
    simpl. rewrite !tokenize_literal by apply str_literal.
    simpl. rewrite !tokenize_literal by apply str_literal.
    simpl. rewrite (tokenize_literal rot) by done.
    simpl. rewrite !tokenize_literal by apply str_literal.
    simpl. rewrite tokenize_literal_end by apply str_literal.
    simpl. flush_all ltac:(apply str_nonempty). reflexivity. }
  rewrite Ht. apply parseCommands_tokens. unfold selfLinkCommands.
  repeat apply Forall_cons_2; simpl; repeat constructor;
    try apply str_literal.
  exact Hr.
Qed.

End Reading.

End Path.

End LinkHelperFacts.

Import LinkHelperFacts.

(** ** The claims *)

Module LinkPathClaims.

#[local] Arguments normalOffset : simpl never.

Lemma str_int (d : R -> string) (e : R) (z : Z) :
  e = IZR z -> (Z.abs z <= MAX_EXACT_INTEGER)%Z -> str d e = pretty z.
Proof. intros ->. apply str_IZR. Qed.

Ltac str_value e z :=
  cbv beta;
  rewrite !(str_int _ e z) by first [ lra | (vm_compute; discriminate) ].

Section Claims.

Variable decimalText : R -> string.
Variable SELF_LINK_DIRECTION : SelfLinkDirection.

(** C1. For a self-link (the same id and the same coordinates at both
    ends) the helper returns one of four fixed arcs of radii (40, 30): the
    rotation and the ±1 offset of the end point are selected by
    [selfLinkDirection] (TOP_LEFT: 45, (+1, -1); BOTTOM_LEFT: -45, (-1, -1);
    BOTTOM_RIGHT: 45, (-1, +1); TOP_RIGHT, also the default: -45, (+1, +1)).
    At (100, 100) the default and TOP_RIGHT give
    ["M100,100 A40,30 -45 1,1 101,101"], and TOP_LEFT gives
    ["M100,100 A40,30 45 1,1 101,99"].  The four directions are distinct
    values. *)
Theorem self_link_fixed_arcs :
  NoDup [TOP_LEFT SELF_LINK_DIRECTION; TOP_RIGHT SELF_LINK_DIRECTION;
         BOTTOM_LEFT SELF_LINK_DIRECTION; BOTTOM_RIGHT SELF_LINK_DIRECTION] ->
  (forall (c : Coords) (type : option string) (bps : list Coords) (id : nodeId)
          (dir : option string),
     let out := buildLinkPathDefinition decimalText SELF_LINK_DIRECTION
                  c c type bps id id dir in
     (dir = Some (TOP_LEFT SELF_LINK_DIRECTION) ->
      out = Some (selfLinkPath decimalText c "45" 1 (-1)))
     ∧ (dir = Some (BOTTOM_LEFT SELF_LINK_DIRECTION) ->
        out = Some (selfLinkPath decimalText c "-45" (-1) (-1)))
     ∧ (dir = Some (BOTTOM_RIGHT SELF_LINK_DIRECTION) ->
        out = Some (selfLinkPath decimalText c "45" (-1) 1))
     ∧ (dir = Some (TOP_RIGHT SELF_LINK_DIRECTION) ∨ dir = None ->
        out = Some (selfLinkPath decimalText c "-45" 1 1))
     ∧ out ∈ [ Some (selfLinkPath decimalText c "45" 1 (-1));
               Some (selfLinkPath decimalText c "-45" (-1) (-1));
               Some (selfLinkPath decimalText c "45" (-1) 1);
               Some (selfLinkPath decimalText c "-45" 1 1) ])
  ∧ (forall (type : option string) (bps : list Coords) (id : nodeId),
       let c := {| x := 100; y := 100 |} in
       buildLinkPathDefinition decimalText SELF_LINK_DIRECTION c c type bps id id
         None
       = Some "M100,100 A40,30 -45 1,1 101,101"
       ∧ buildLinkPathDefinition decimalText SELF_LINK_DIRECTION c c type bps id id
           (Some (TOP_RIGHT SELF_LINK_DIRECTION))
         = Some "M100,100 A40,30 -45 1,1 101,101"
       ∧ buildLinkPathDefinition decimalText SELF_LINK_DIRECTION c c type bps id id
           (Some (TOP_LEFT SELF_LINK_DIRECTION))
         = Some "M100,100 A40,30 45 1,1 101,99").
Proof.
  intros Hnd.
  assert (TOP_LEFT SELF_LINK_DIRECTION ≠ TOP_RIGHT SELF_LINK_DIRECTION
          ∧ TOP_RIGHT SELF_LINK_DIRECTION ≠ BOTTOM_LEFT SELF_LINK_DIRECTION
          ∧ TOP_RIGHT SELF_LINK_DIRECTION ≠ BOTTOM_RIGHT SELF_LINK_DIRECTION
          ∧ TOP_LEFT SELF_LINK_DIRECTION ≠ BOTTOM_LEFT SELF_LINK_DIRECTION
          ∧ TOP_LEFT SELF_LINK_DIRECTION ≠ BOTTOM_RIGHT SELF_LINK_DIRECTION
          ∧ BOTTOM_LEFT SELF_LINK_DIRECTION ≠ BOTTOM_RIGHT SELF_LINK_DIRECTION)
    as (H1 & H2 & H3 & H4 & H5 & H6).
  { rewrite !NoDup_cons, !not_elem_of_cons in Hnd. tauto. }
  assert (Hgen : forall c type bps id dir,
    let out := buildLinkPathDefinition decimalText SELF_LINK_DIRECTION
                  c c type bps id id dir in
     (dir = Some (TOP_LEFT SELF_LINK_DIRECTION) ->
      out = Some (selfLinkPath decimalText c "45" 1 (-1)))
     ∧ (dir = Some (BOTTOM_LEFT SELF_LINK_DIRECTION) ->
        out = Some (selfLinkPath decimalText c "-45" (-1) (-1)))
     ∧ (dir = Some (BOTTOM_RIGHT SELF_LINK_DIRECTION) ->
        out = Some (selfLinkPath decimalText c "45" (-1) 1))
     ∧ (dir = Some (TOP_RIGHT SELF_LINK_DIRECTION) ∨ dir = None ->
        out = Some (selfLinkPath decimalText c "-45" 1 1))).
  { intros c type bps id dir out. subst out. rewrite self_link_path.
    repeat split.
    - intros ->. simpl. by rewrite decide_True.
    - intros ->. simpl. rewrite decide_False by congruence. by rewrite decide_True.
    - intros ->. simpl. rewrite !decide_False by congruence. by rewrite decide_True.
    - intros Hd. assert (default (TOP_RIGHT SELF_LINK_DIRECTION) dir = TOP_RIGHT SELF_LINK_DIRECTION) as ->.
      { by destruct Hd as [-> | ->]. }
      by rewrite !decide_False by congruence. }
  split.
  - intros c type bps id dir out.
    destruct (Hgen c type bps id dir) as (Ha & Hb & Hc & Hd).
    repeat split; try done.
    subst out. rewrite self_link_path.
    repeat case_decide; apply list_elem_of_In; simpl; tauto.
  - intros type bps id c.
    destruct (Hgen c type bps id None) as (_ & _ & _ & Hn).
    destruct (Hgen c type bps id (Some (TOP_RIGHT SELF_LINK_DIRECTION))) as (_ & _ & _ & Hr).
    destruct (Hgen c type bps id (Some (TOP_LEFT SELF_LINK_DIRECTION))) as (Hl & _).
    rewrite Hn, Hr, Hl by auto. unfold selfLinkPath. subst c. simpl.
    str_value (100 + 1) 101%Z. str_value (100 + -1) 99%Z. str_value 100 100%Z.
    by vm_compute.
Qed.

(** C10. For a self-link, every [selfLinkDirection] other than TOP_LEFT,
    BOTTOM_LEFT and BOTTOM_RIGHT, an unknown value or a missing one alike,
    gives the TOP_RIGHT arc ["M{x},{y} A40,30 -45 1,1 {x+1},{y+1}"].  (The
    default, TOP_RIGHT, is none of the other three directions.) *)
Theorem self_link_default_direction (c : Coords) (type : option string)
    (bps : list Coords) (id : nodeId) (dir : option string) :
  TOP_RIGHT SELF_LINK_DIRECTION
    ∉ [TOP_LEFT SELF_LINK_DIRECTION; BOTTOM_LEFT SELF_LINK_DIRECTION;
       BOTTOM_RIGHT SELF_LINK_DIRECTION] ->
  (forall d, dir = Some d ->
     d ∉ [TOP_LEFT SELF_LINK_DIRECTION; BOTTOM_LEFT SELF_LINK_DIRECTION;
          BOTTOM_RIGHT SELF_LINK_DIRECTION]) ->
  buildLinkPathDefinition decimalText SELF_LINK_DIRECTION c c type bps id id dir
  = Some ("M" +:+ str decimalText (x c) +:+ "," +:+ str decimalText (y c)
          +:+ " A40,30 -45 1,1 "
          +:+ str decimalText (x c + 1) +:+ "," +:+ str decimalText (y c + 1)).
Proof.
  intros Hdefault Hdir. rewrite self_link_path.
  assert (Hd : default (TOP_RIGHT SELF_LINK_DIRECTION) dir
               ∉ [TOP_LEFT SELF_LINK_DIRECTION; BOTTOM_LEFT SELF_LINK_DIRECTION;
                  BOTTOM_RIGHT SELF_LINK_DIRECTION]).
  { destruct dir as [d|]; [ by apply Hdir | exact Hdefault ]. }
  rewrite !not_elem_of_cons in Hd. destruct Hd as (Ha & Hb & Hc & _).
  by rewrite !decide_False by done.
Qed.

(** C8. When x1 = x2, [angleBetweenPoints] returns -π/2 if y1 > y2 and π/2
    otherwise; when moreover y1 ≠ y2 this is the value of the general formula
    atan2(y2 - y1, x2 - x1), so the branch only matters when the two points
    coincide: there it returns π/2, where atan2(0, 0) is 0. *)
Theorem vertical_branch (x1 y1 x2 y2 : R) :
  x1 = x2 ->
  (y1 > y2 -> angleBetweenPoints x1 y1 x2 y2 = - PI / 2)
  ∧ (¬ y1 > y2 -> angleBetweenPoints x1 y1 x2 y2 = PI / 2)
  ∧ (y1 ≠ y2 ->
     angleBetweenPoints x1 y1 x2 y2 = Math_atan2 (y2 - y1) (x2 - x1))
  ∧ (y1 = y2 ->
     angleBetweenPoints x1 y1 x2 y2 = PI / 2
     ∧ Math_atan2 (y2 - y1) (x2 - x1) = 0
     ∧ PI / 2 ≠ 0).
Proof.
  intros ->. repeat split.
  - intros Hgt. unfold angleBetweenPoints. by rewrite !decide_True.
  - intros Hle. unfold angleBetweenPoints.
    rewrite decide_True by done. by rewrite decide_False.
  - intros Hne. apply angleBetweenPoints_distinct. by right.
  - subst. apply angleBetweenPoints_coincident.
  - subst. replace (y2 - y2) with 0 by lra. replace (x2 - x2) with 0 by lra.
    apply Math_atan2_origin.
  - pose proof PI_RGT_0. lra.
Qed.

Lemma regular_path_arcs (f : radiusStrategy) (g : Coords * Coords -> string)
    (s t : Coords) (bps : list Coords) :
  (forall seg, arcOfSegment decimalText f seg = g seg) ->
  regularPath decimalText f s t bps
  = moveTo decimalText (x s + (normalOffset s t).1) (y s + (normalOffset s t).2)
    +:+ lineTo decimalText
          (ninetyPercent (x s + (normalOffset s t).1) (x t + (normalOffset s t).1))
          (ninetyPercent (y s + (normalOffset s t).2) (y t + (normalOffset s t).2))
    +:+ String.concat "" (g <$> segments s (bps ++ [t])).
Proof.
  intros Hg. unfold regularPath. destruct (normalOffset s t) as [ox oy]. simpl.
  do 3 f_equal. apply list_fmap_ext. intros _ seg _. apply Hg.
Qed.

Lemma arcOfSegment_constant (f : radiusStrategy) (z : Z) (seg : Coords * Coords) :
  (forall a b c e, f a b c e = IZR z) ->
  (Z.abs z <= MAX_EXACT_INTEGER)%Z ->
  arcOfSegment decimalText f seg
  = " A" +:+ pretty z +:+ "," +:+ pretty z +:+ " 0 0,1 "
    +:+ str decimalText (arcEnd seg).1 +:+ "," +:+ str decimalText (arcEnd seg).2.
Proof.
  intros Hf Hz. unfold arcOfSegment, arcTo, arcRadius.
  destruct seg as [p c]. destruct (normalOffset p c) as [ox oy].
  by rewrite Hf, str_IZR.
Qed.

(** C5. For two distinct endpoints, line type CURVE_FULL gives every arc
    of the path the radius 1, whatever the distance between the endpoints
    and whatever the breakpoints: the strategy selected is
    [fullCurveRadius], which is constantly 1. *)
Theorem full_curve_radius (s t : Coords) (bps : list Coords)
    (sid tid : nodeId) (dir : option string) :
  x s ≠ x t ∨ y s ≠ y t ->
  buildLinkPathDefinition decimalText SELF_LINK_DIRECTION s t (Some CURVE_FULL)
    bps sid tid dir
  = Some (moveTo decimalText (x s + (normalOffset s t).1) (y s + (normalOffset s t).2)
          +:+ lineTo decimalText
                (ninetyPercent (x s + (normalOffset s t).1) (x t + (normalOffset s t).1))
                (ninetyPercent (y s + (normalOffset s t).2) (y t + (normalOffset s t).2))
          +:+ String.concat ""
                ((fun seg => " A1,1 0 0,1 " +:+ str decimalText (arcEnd seg).1
                             +:+ "," +:+ str decimalText (arcEnd seg).2)
                 <$> segments s (bps ++ [t])))
  ∧ getRadiusStrategy (validTypeOf CURVE_FULL) = RadiusFn fullCurveRadius
  ∧ (forall x1 y1 x2 y2, fullCurveRadius x1 y1 x2 y2 = 1).
Proof.
  intros Hne. split; [ | by split ].
  rewrite regular_link_path by (unfold isSelfLink; tauto).
  f_equal. apply regular_path_arcs. intros seg.
  by rewrite (arcOfSegment_constant fullCurveRadius 1).
Qed.

(** C6. A line type other than STRAIGHT, CURVE_SMOOTH and CURVE_FULL
    selects the straight-line strategy; the helper then returns what it
    returns for STRAIGHT, and every arc of the path has radius 0. *)
Theorem unknown_line_type_is_straight (type : string) :
  type ∉ [STRAIGHT; CURVE_SMOOTH; CURVE_FULL] ->
  getRadiusStrategy (validTypeOf type) = RadiusFn straightLineRadius
  ∧ (forall s t bps sid tid dir,
       buildLinkPathDefinition decimalText SELF_LINK_DIRECTION s t (Some type)
         bps sid tid dir
       = buildLinkPathDefinition decimalText SELF_LINK_DIRECTION s t
           (Some STRAIGHT) bps sid tid dir)
  ∧ (forall s t bps sid tid dir,
       ¬ isSelfLink s t sid tid ->
       buildLinkPathDefinition decimalText SELF_LINK_DIRECTION s t (Some type)
         bps sid tid dir
       = Some (moveTo decimalText (x s + (normalOffset s t).1)
                                  (y s + (normalOffset s t).2)
               +:+ lineTo decimalText
                     (ninetyPercent (x s + (normalOffset s t).1)
                                    (x t + (normalOffset s t).1))
                     (ninetyPercent (y s + (normalOffset s t).2)
                                    (y t + (normalOffset s t).2))
               +:+ String.concat ""
                     ((fun seg => " A0,0 0 0,1 " +:+ str decimalText (arcEnd seg).1
                                  +:+ "," +:+ str decimalText (arcEnd seg).2)
                      <$> segments s (bps ++ [t])))).
Proof.
  intros Hty. rewrite !not_elem_of_cons in Hty. destruct Hty as (H1 & H2 & H3 & _).
  assert (Hst : strategyFor type = straightLineRadius).
  { unfold strategyFor. by rewrite !decide_False. }
  split; [ by rewrite strategy_selected, Hst | ]. split.
  - intros s t bps sid tid dir.
    destruct (decide (isSelfLink s t sid tid)) as [(-> & Hx & Hy) | Hns].
    + destruct s as [sx sy], t as [tx ty]. simpl in Hx, Hy. subst.
      by rewrite !self_link_path.
    + rewrite !regular_link_path by done. simpl. by rewrite Hst.
  - intros s t bps sid tid dir Hns. rewrite regular_link_path by done.
    simpl. rewrite Hst. f_equal. apply regular_path_arcs. intros seg.
    by rewrite (arcOfSegment_constant straightLineRadius 0).
Qed.

(** C4. For line type CURVE_SMOOTH the radius of each arc is the Euclidean
    distance between the offset endpoints of its segment (which is also the
    distance between the endpoints themselves). *)
Theorem smooth_curve_radius (s t : Coords) (bps : list Coords)
    (sid tid : nodeId) (dir : option string) :
  ¬ isSelfLink s t sid tid ->
  buildLinkPathDefinition decimalText SELF_LINK_DIRECTION s t (Some CURVE_SMOOTH)
    bps sid tid dir
  = Some (moveTo decimalText (x s + (normalOffset s t).1) (y s + (normalOffset s t).2)
          +:+ lineTo decimalText
                (ninetyPercent (x s + (normalOffset s t).1) (x t + (normalOffset s t).1))
                (ninetyPercent (y s + (normalOffset s t).2) (y t + (normalOffset s t).2))
          +:+ String.concat ""
                ((fun seg => arcTo decimalText (offsetEndpointsDistance seg)
                               (offsetEndpointsDistance seg)
                               (arcEnd seg).1 (arcEnd seg).2)
                 <$> segments s (bps ++ [t])))
  ∧ (forall seg,
       offsetEndpointsDistance seg
       = distance (x seg.1) (y seg.1) (x seg.2) (y seg.2)).
Proof.
  intros Hns. split.
  - rewrite regular_link_path by done.
    change (strategyFor (default STRAIGHT (Some CURVE_SMOOTH)))
      with smoothCurveRadius.
    rewrite (regular_path_arcs smoothCurveRadius
               (fun seg => arcTo decimalText (offsetEndpointsDistance seg)
                             (offsetEndpointsDistance seg)
                             (arcEnd seg).1 (arcEnd seg).2)); [ done | ].
    intros [p c]. unfold arcOfSegment, arcRadius, offsetEndpointsDistance.
    destruct (normalOffset p c) as [ox oy]. reflexivity.
  - intros [p c]. unfold offsetEndpointsDistance.
    destruct (normalOffset p c) as [ox oy]. unfold distance. simpl.
    f_equal. unfold Rsqr. ring.
Qed.

(** C7. For a link that is not a self-link, with breakpoints B, the path
    reads as a move to the offset source, then one line to the point at 90%
    of the way from the offset source to the offset target, then exactly
    |B| + 1 arcs. *)
Theorem regular_link_shape (s t : Coords) (type : option string)
    (bps : list Coords) (sid tid : nodeId) (dir : option string) :
  (forall r, isNumberLiteral (decimalText r) = true) ->
  ¬ isSelfLink s t sid tid ->
  exists (out : string) (arcs : list pathCommand),
    buildLinkPathDefinition decimalText SELF_LINK_DIRECTION s t type bps sid tid dir
    = Some out
    ∧ parsePath out
      = Some (MoveTo (str decimalText (x s + (normalOffset s t).1))
                     (str decimalText (y s + (normalOffset s t).2))
              :: LineTo (str decimalText
                           (ninetyPercent (x s + (normalOffset s t).1)
                                          (x t + (normalOffset s t).1)))
                        (str decimalText
                           (ninetyPercent (y s + (normalOffset s t).2)
                                          (y t + (normalOffset s t).2)))
              :: arcs)
    ∧ length arcs = (length bps + 1)%nat
    ∧ Forall (fun cmd => exists r ex ey, cmd = ArcTo r r "0" false true ex ey) arcs.
Proof.
  intros Hd Hns.
  exists (regularPath decimalText (strategyFor (default STRAIGHT type)) s t bps),
    (arcCommand decimalText (strategyFor (default STRAIGHT type))
       <$> segments s (bps ++ [t])).
  split; [ by apply regular_link_path | ]. split; [ | split ].
  - rewrite parsePath_regularPath by done. unfold regularCommands.
    by destruct (normalOffset s t).
  - by rewrite length_fmap, segments_length.
  - apply Forall_fmap, Forall_forall. intros seg _. unfold arcCommand. simpl. eauto.
Qed.

Lemma normalOffset_coincident (c : Coords) : normalOffset c c = (3, 0).
Proof.
  unfold normalOffset, offsetAt, LINE_POS_OFFSET.
  rewrite angleBetweenPoints_coincident, sin_PI2, cos_PI2. f_equal; lra.
Qed.

Lemma arcOfSegment_coincident (f : radiusStrategy) (c : Coords) :
  arcOfSegment decimalText f (c, c)
  = arcTo decimalText (f (x c + 3) (y c + 0) (x c + 3) (y c + 0))
      (f (x c + 3) (y c + 0) (x c + 3) (y c + 0)) 3 0.
Proof.
  unfold arcOfSegment, arcRadius, arcEnd. cbn [fst snd].
  by rewrite normalOffset_coincident.
Qed.

(** For coincident endpoints of a link between two different nodes the
    helper returns (it does not fail), and what it returns is a well-formed
    path whose line segment has length zero: it starts and ends at the offset
    source (x + 3, y).  Without breakpoints the path is
    ["M{x+3},{y}L{x+3},{y} A{r},{r} 0 0,1 3,0"], r being 1 for CURVE_FULL and 0
    otherwise. *)
Theorem coincident_endpoints_path (c : Coords) (type : option string)
    (bps : list Coords) (sid tid : nodeId) (dir : option string) :
  (forall r, isNumberLiteral (decimalText r) = true) ->
  sid ≠ tid ->
  exists (out : string) (arcs : list pathCommand),
    buildLinkPathDefinition decimalText SELF_LINK_DIRECTION c c type bps sid tid dir
    = Some out
    ∧ wellFormedPath out = true
    ∧ parsePath out
      = Some (MoveTo (str decimalText (x c + 3)) (str decimalText (y c))
              :: LineTo (str decimalText (x c + 3)) (str decimalText (y c))
              :: arcs)
    ∧ length arcs = (length bps + 1)%nat
    ∧ (bps = [] ->
       out = "M" +:+ str decimalText (x c + 3) +:+ "," +:+ str decimalText (y c)
             +:+ "L" +:+ str decimalText (x c + 3) +:+ "," +:+ str decimalText (y c)
             +:+ (if decide (type = Some CURVE_FULL)
                  then " A1,1 0 0,1 3,0" else " A0,0 0 0,1 3,0")).
Proof.
  intros Hd Hid.
  assert (Hns : ¬ isSelfLink c c sid tid) by (unfold isSelfLink; tauto).
  set (f := strategyFor (default STRAIGHT type)).
  exists (regularPath decimalText f c c bps),
    (arcCommand decimalText f <$> segments c (bps ++ [c])).
  assert (Hparse : parsePath (regularPath decimalText f c c bps)
                   = Some (MoveTo (str decimalText (x c + 3)) (str decimalText (y c))
                           :: LineTo (str decimalText (x c + 3)) (str decimalText (y c))
                           :: (arcCommand decimalText f <$> segments c (bps ++ [c])))).
  { rewrite parsePath_regularPath by done. unfold regularCommands.
    rewrite normalOffset_coincident. unfold ninetyPercent.
    replace (x c + 3 + 0.9 * (x c + 3 - (x c + 3))) with (x c + 3) by lra.
    replace (y c + 0 + 0.9 * (y c + 0 - (y c + 0))) with (y c) by lra.
    by replace (y c + 0) with (y c) by lra. }
  split; [ by apply regular_link_path | ]. split; [ | split; [ | split ] ].
  - unfold wellFormedPath. by rewrite Hparse.
  - exact Hparse.
  - by rewrite length_fmap, segments_length.
  - intros ->. unfold regularPath. rewrite normalOffset_coincident.
    unfold moveTo, lineTo, ninetyPercent.
    replace (x c + 3 + 0.9 * (x c + 3 - (x c + 3))) with (x c + 3) by lra.
    replace (y c + 0 + 0.9 * (y c + 0 - (y c + 0))) with (y c) by lra.
    replace (y c + 0) with (y c) by lra.
    rewrite !string_app_assoc. do 8 f_equal.
    unfold segments. simpl. rewrite arcOfSegment_coincident. unfold arcTo.
    str_value 3 3%Z. str_value 0 0%Z.
    assert (Hr : f (x c + 3) (y c + 0) (x c + 3) (y c + 0)
                 = if decide (type = Some CURVE_FULL) then 1 else 0).
    { subst f. unfold strategyFor.
      destruct (decide (default STRAIGHT type = CURVE_SMOOTH)) as [Hs | Hs].
      - rewrite decide_False by (intros ->; done). unfold smoothCurveRadius.
        replace ((x c + 3 - (x c + 3)) * (x c + 3 - (x c + 3))
                 + (y c + 0 - (y c + 0)) * (y c + 0 - (y c + 0))) with 0 by ring.
        apply sqrt_0.
      - destruct (decide (default STRAIGHT type = CURVE_FULL)) as [Hf | Hf].
        + rewrite decide_True; [ done | ]. by destruct type as [ty|]; simplify_eq/=.
        + rewrite decide_False; [ done | ]. intros ->. by apply Hf. }
    rewrite Hr. destruct (decide (type = Some CURVE_FULL)).
    + str_value 1 1%Z. by vm_compute.
    + str_value 0 0%Z. by vm_compute.
Qed.

Lemma offsetAt_length (theta : R) :
  sqrt ((offsetAt theta).1² + (offsetAt theta).2²) = 3.
Proof.
  unfold offsetAt, LINE_POS_OFFSET. simpl.
  match goal with
  | |- sqrt ?e = _ =>
      replace e with (3² * ((sin theta)² + (cos theta)²)) by (unfold Rsqr; ring)
  end.
  rewrite sin2_cos2, Rmult_1_r. apply sqrt_Rsqr. lra.
Qed.

(** C3 (amended). For a link that is not a self-link, the offset added to
    the source and to the target is (3·sin θ, -3·cos θ), where θ is
    atan2(Δy, Δx) of the source→target vector when the endpoints differ and
    π/2 when they coincide; it has length 3 and is perpendicular to the
    source→target vector. *)
Theorem link_offset_is_normal (s t : Coords) (type : option string)
    (bps : list Coords) (sid tid : nodeId) (dir : option string) :
  ¬ isSelfLink s t sid tid ->
  let theta := if decide (x s = x t ∧ y s = y t) then PI / 2
               else Math_atan2 (y t - y s) (x t - x s) in
  let ox := 3 * sin theta in
  let oy := - 3 * cos theta in
  buildLinkPathDefinition decimalText SELF_LINK_DIRECTION s t type bps sid tid dir
  = Some (moveTo decimalText (x s + ox) (y s + oy)
          +:+ lineTo decimalText (ninetyPercent (x s + ox) (x t + ox))
                                 (ninetyPercent (y s + oy) (y t + oy))
          +:+ String.concat ""
                (arcOfSegment decimalText (strategyFor (default STRAIGHT type))
                 <$> segments s (bps ++ [t])))
  ∧ sqrt (ox² + oy²) = 3
  ∧ ox * (x t - x s) + oy * (y t - y s) = 0.
Proof.
  intros Hns theta ox oy.
  assert (Hoff : normalOffset s t = (ox, oy)).
  { unfold normalOffset, offsetAt, LINE_POS_OFFSET. subst ox oy theta.
    destruct (decide (x s = x t ∧ y s = y t)) as [[-> ->] | Hne].
    - by rewrite angleBetweenPoints_coincident.
    - rewrite angleBetweenPoints_distinct; [ done | ].
      destruct (decide (x s = x t)); [ right | left ]; tauto. }
  split; [ | split ].
  - rewrite regular_link_path by done. unfold regularPath. by rewrite Hoff.
  - apply (offsetAt_length theta).
  - subst ox oy theta.
    destruct (decide (x s = x t ∧ y s = y t)) as [[-> ->] | Hne]; [ lra | ].
    assert (Hd : x t - x s ≠ 0 ∨ y t - y s ≠ 0).
    { destruct (decide (x s = x t)); [ right | left ]; [ | lra ].
      intros ?. apply Hne. split; [ done | lra ]. }
    destruct (Math_atan2_direction _ _ Hd) as [Hc Hs].
    set (sn := sin _) in *. set (cs := cos _) in *. set (r := sqrt _) in *.
    rewrite <- Hc, <- Hs. ring.
Qed.

End Claims.

(** C3, as it is stated, fails for coincident endpoints: between two
    different nodes both at (0, 0) the helper moves to (3, 0), the offset
    of θ = π/2, where θ = atan2(0, 0) = 0 gives the offset source (0, -3). *)
Lemma link_offset_atan2_counterexample :
  let c := {| x := 0; y := 0 |} in
  let theta := Math_atan2 (y c - y c) (x c - x c) in
  (forall d dirs,
     buildLinkPathDefinition d dirs c c (Some STRAIGHT) [] (IdNumber 1)
       (IdNumber 2) None
     = Some "M3,0L3,0 A0,0 0 0,1 3,0")
  ∧ (forall d, moveTo d (x c + 3 * sin theta) (y c + - 3 * cos theta) = "M0,-3")
  ∧ (forall d dirs rest,
       buildLinkPathDefinition d dirs c c (Some STRAIGHT) [] (IdNumber 1)
         (IdNumber 2) None
       ≠ Some (moveTo d (x c + 3 * sin theta) (y c + - 3 * cos theta) +:+ rest)).
Proof.
  intros c theta.
  assert (Hclaimed : forall d,
            moveTo d (x c + 3 * sin theta) (y c + - 3 * cos theta) = "M0,-3").
  { intros d. subst theta c. simpl.
    replace (0 - 0) with 0 by lra. rewrite Math_atan2_origin, sin_0, cos_0.
    unfold moveTo. str_value (0 + 3 * 0) 0%Z. str_value (0 + - 3 * 1) (-3)%Z.
    by vm_compute. }
  assert (Hcode : forall d dirs,
            buildLinkPathDefinition d dirs c c (Some STRAIGHT) []
              (IdNumber 1) (IdNumber 2) None
            = Some "M3,0L3,0 A0,0 0 0,1 3,0").
  { intros d dirs.
    rewrite regular_link_path
      by (unfold isSelfLink; intros [H _]; injection H; lra).
    unfold regularPath. rewrite normalOffset_coincident.
    unfold segments, moveTo, lineTo, ninetyPercent. simpl.
    rewrite arcOfSegment_coincident. unfold arcTo, straightLineRadius.
    str_value (0 + 3) 3%Z. str_value (0 + 0) 0%Z.
    str_value (0 + 3 + 0.9 * (0 + 3 - (0 + 3))) 3%Z.
    str_value (0 + 0 + 0.9 * (0 + 0 - (0 + 0))) 0%Z.
    str_value 3 3%Z. str_value 0 0%Z. by vm_compute. }
  split; [ exact Hcode | split; [ exact Hclaimed | ] ].
  intros d dirs rest. rewrite Hcode, Hclaimed, !string_app_cons. discriminate.
Qed.

(** The link from (0, 0) to (100, 0), used in the examples. *)
Lemma normalOffset_example :
  normalOffset {| x := 0; y := 0 |} {| x := 100; y := 0 |} = (0, -3).
Proof.
  unfold normalOffset, offsetAt, LINE_POS_OFFSET. simpl.
  rewrite angleBetweenPoints_distinct by (left; lra).
  replace (0 - 0) with 0 by lra. replace (100 - 0) with 100 by lra.
  rewrite Math_atan2_positive_axis by lra. rewrite sin_0, cos_0. f_equal; lra.
Qed.

Ltac example_path :=
  unfold regularPath, moveTo, lineTo, ninetyPercent, segments, arcOfSegment,
    arcTo, arcRadius, arcEnd;
  cbn [x y fst snd app zip zip_with fmap list_fmap String.concat];
  rewrite ?normalOffset_example; cbn [x y fst snd].

(** C2 (the code at the failing input). For the link from (0, 0) to
    (100, 0) the offset is (0, -3) and the offset target is (100, -3), but the
    last arc of the path ends at (0, -3), the offset vector itself. *)
Theorem arc_end_is_offset_vector :
  forall (d : R -> string) (dirs : SelfLinkDirection),
    let s := {| x := 0; y := 0 |} in
    let t := {| x := 100; y := 0 |} in
    buildLinkPathDefinition d dirs s t (Some STRAIGHT) [] (IdNumber 1)
      (IdNumber 2) None
    = Some "M0,-3L90,-3 A0,0 0 0,1 0,-3"
    ∧ parsePath "M0,-3L90,-3 A0,0 0 0,1 0,-3"
      = Some [MoveTo "0" "-3"; LineTo "90" "-3";
              ArcTo "0" "0" "0" false true "0" "-3"]
    ∧ normalOffset s t = (0, -3)
    ∧ str d (x t + (normalOffset s t).1) = "100"
    ∧ str d (y t + (normalOffset s t).2) = "-3".
Proof.
  intros d dirs s t. subst s t. rewrite normalOffset_example.
  split; [ | split; [ by vm_compute | split; [ done | ] ] ].
  - rewrite regular_link_path
      by (unfold isSelfLink; intros [H _]; injection H; lra).
    example_path. unfold strategyFor, straightLineRadius. simpl.
    str_value (0 + 0) 0%Z. str_value (0 + -3) (-3)%Z.
    str_value (0 + 0 + 0.9 * (100 + 0 - (0 + 0))) 90%Z.
    str_value (0 + -3 + 0.9 * (0 + -3 - (0 + -3))) (-3)%Z.
    str_value 0 0%Z. str_value (-3) (-3)%Z. by vm_compute.
  - simpl. str_value (100 + 0) 100%Z. str_value (0 + -3) (-3)%Z.
    by vm_compute.
Qed.

(** C9 (the code at the failing input). For two different nodes both at
    (10, 20) the helper returns, and what it returns is well formed, but it
    is not a zero-length path: after the move and the zero-length line at
    the offset point (13, 20), the arc goes to x = 3, the offset itself,
    and not back to (13, 20). *)
Theorem coincident_endpoints_arc_leaves_the_point :
  forall (d : R -> string) (dirs : SelfLinkDirection),
    let c := {| x := 10; y := 20 |} in
    exists (out ey : string),
      buildLinkPathDefinition d dirs c c (Some STRAIGHT) [] (IdNumber 1)
        (IdNumber 2) None
      = Some out
      ∧ out = "M13,20L13,20 A0,0 0 0,1 3," +:+ ey
      ∧ wellFormedPath out = true
      ∧ parsePath out
        = Some [MoveTo "13" "20"; LineTo "13" "20";
                ArcTo "0" "0" "0" false true "3" ey]
      ∧ str d (x c + (normalOffset c c).1) = "13"
      ∧ str d (y c + (normalOffset c c).2) = "20".
Proof.
  intros d dirs c. subst c.
  exists "M13,20L13,20 A0,0 0 0,1 3,0", "0".
  split; [ | split; [ done | split; [ by vm_compute | split; [ by vm_compute | ] ] ] ].
  - rewrite regular_link_path
      by (unfold isSelfLink; intros [H _]; injection H; lra).
    unfold regularPath. rewrite normalOffset_coincident.
    unfold segments, moveTo, lineTo, ninetyPercent. simpl.
    rewrite arcOfSegment_coincident. unfold arcTo, straightLineRadius.
    str_value (10 + 3) 13%Z. str_value (20 + 0) 20%Z.
    str_value (10 + 3 + 0.9 * (10 + 3 - (10 + 3))) 13%Z.
    str_value (20 + 0 + 0.9 * (20 + 0 - (20 + 0))) 20%Z.
    str_value 3 3%Z. str_value 0 0%Z. by vm_compute.
  - rewrite normalOffset_coincident. cbn [x y fst snd].
    str_value (10 + 3) 13%Z. str_value (20 + 0) 20%Z. by vm_compute.
Qed.

Lemma directionNames_NoDup :
  NoDup [TOP_LEFT directionNames; TOP_RIGHT directionNames;
         BOTTOM_LEFT directionNames; BOTTOM_RIGHT directionNames].
Proof. apply (bool_decide_unpack _). vm_compute. exact I. Qed.

Lemma sampleDecimalText_literal (r : R) :
  isNumberLiteral (sampleDecimalText r) = true.
Proof. reflexivity. Qed.

Lemma example_not_self_link :
  ¬ isSelfLink {| x := 0; y := 0 |} {| x := 100; y := 0 |}
      (IdNumber 1) (IdNumber 2).
Proof. unfold isSelfLink. simpl. intros (_ & H & _). lra. Qed.

(** C1 at the four directions named after themselves. *)
Lemma self_link_fixed_arcs_witness :
  NoDup [TOP_LEFT directionNames; TOP_RIGHT directionNames;
         BOTTOM_LEFT directionNames; BOTTOM_RIGHT directionNames]
  ∧ buildLinkPathDefinition sampleDecimalText directionNames
      {| x := 100; y := 100 |} {| x := 100; y := 100 |} None []
      (IdString "a") (IdString "a") (Some "TOP_LEFT")
    = Some "M100,100 A40,30 45 1,1 101,99".
Proof.
  split; [ exact directionNames_NoDup | ].
  exact (proj2 (proj2 (proj2 (self_link_fixed_arcs sampleDecimalText
                                directionNames directionNames_NoDup)
                          None [] (IdString "a")))).
Defined.

(** C10 at the unknown direction SIDEWAYS. *)
Lemma self_link_default_direction_witness :
  (TOP_RIGHT directionNames
     ∉ [TOP_LEFT directionNames; BOTTOM_LEFT directionNames;
        BOTTOM_RIGHT directionNames])
  ∧ (forall d, Some "SIDEWAYS" = Some d ->
       d ∉ [TOP_LEFT directionNames; BOTTOM_LEFT directionNames;
            BOTTOM_RIGHT directionNames])
  ∧ buildLinkPathDefinition sampleDecimalText directionNames
      {| x := 5; y := 7 |} {| x := 5; y := 7 |} None [] (IdNumber 1) (IdNumber 1)
      (Some "SIDEWAYS")
    = Some "M5,7 A40,30 -45 1,1 6,8".
Proof.
  assert (H1 : TOP_RIGHT directionNames
                 ∉ [TOP_LEFT directionNames; BOTTOM_LEFT directionNames;
                    BOTTOM_RIGHT directionNames])
    by (apply (bool_decide_unpack _); vm_compute; exact I).
  assert (H2 : forall d, Some "SIDEWAYS" = Some d ->
                 d ∉ [TOP_LEFT directionNames; BOTTOM_LEFT directionNames;
                      BOTTOM_RIGHT directionNames])
    by (intros d [= <-]; apply (bool_decide_unpack _); vm_compute; exact I).
  split; [ exact H1 | split; [ exact H2 | ] ].
  rewrite (self_link_default_direction sampleDecimalText directionNames
             {| x := 5; y := 7 |} None [] (IdNumber 1) (Some "SIDEWAYS") H1 H2).
  simpl. str_value 5 5%Z. str_value 7 7%Z. str_value (5 + 1) 6%Z.
  str_value (7 + 1) 8%Z. by vm_compute.
Defined.

(** C8 at the points (1, 5) and (1, 2). *)
Lemma vertical_branch_witness :
  1 = 1 ∧ 5 > 2 ∧ angleBetweenPoints 1 5 1 2 = - PI / 2.
Proof.
  assert (H : 5 > 2) by lra.
  split; [ reflexivity | split; [ exact H | ] ].
  exact (proj1 (vertical_branch 1 5 1 2 eq_refl) H).
Defined.

(** C5 at the link from (0, 0) to (100, 0). *)
Lemma full_curve_radius_witness :
  (x {| x := 0; y := 0 |} ≠ x {| x := 100; y := 0 |}
   ∨ y {| x := 0; y := 0 |} ≠ y {| x := 100; y := 0 |})
  ∧ buildLinkPathDefinition sampleDecimalText directionNames
      {| x := 0; y := 0 |} {| x := 100; y := 0 |} (Some CURVE_FULL) []
      (IdNumber 1) (IdNumber 2) None
    = Some "M0,-3L90,-3 A1,1 0 0,1 0,-3".
Proof.
  assert (H : x {| x := 0; y := 0 |} ≠ x {| x := 100; y := 0 |}
              ∨ y {| x := 0; y := 0 |} ≠ y {| x := 100; y := 0 |})
    by (left; simpl; lra).
  split; [ exact H | ].
  rewrite (proj1 (full_curve_radius sampleDecimalText directionNames
                    {| x := 0; y := 0 |} {| x := 100; y := 0 |} []
                    (IdNumber 1) (IdNumber 2) None H)).
  example_path.
  str_value (0 + 0) 0%Z. str_value (0 + -3) (-3)%Z.
  str_value (0 + 0 + 0.9 * (100 + 0 - (0 + 0))) 90%Z.
  str_value (0 + -3 + 0.9 * (0 + -3 - (0 + -3))) (-3)%Z.
  str_value 0 0%Z. str_value (-3) (-3)%Z. by vm_compute.
Defined.

(** C6 at the line type [constructor], a name that every object
    inherits. *)
Lemma unknown_line_type_is_straight_witness :
  ("constructor" ∉ [STRAIGHT; CURVE_SMOOTH; CURVE_FULL])
  ∧ getRadiusStrategy (validTypeOf "constructor") = RadiusFn straightLineRadius
  ∧ buildLinkPathDefinition sampleDecimalText directionNames
      {| x := 0; y := 0 |} {| x := 100; y := 0 |} (Some "constructor") []
      (IdNumber 1) (IdNumber 2) None
    = Some "M0,-3L90,-3 A0,0 0 0,1 0,-3".
Proof.
  assert (H : "constructor" ∉ [STRAIGHT; CURVE_SMOOTH; CURVE_FULL])
    by (apply (bool_decide_unpack _); vm_compute; exact I).
  destruct (unknown_line_type_is_straight sampleDecimalText directionNames
              "constructor" H) as (Hs & _ & Hp).
  split; [ exact H | split; [ exact Hs | ] ].
  rewrite Hp by exact example_not_self_link.
  example_path.
  str_value (0 + 0) 0%Z. str_value (0 + -3) (-3)%Z.
  str_value (0 + 0 + 0.9 * (100 + 0 - (0 + 0))) 90%Z.
  str_value (0 + -3 + 0.9 * (0 + -3 - (0 + -3))) (-3)%Z.
  str_value 0 0%Z. str_value (-3) (-3)%Z. by vm_compute.
Defined.

(** C4 at the link from (0, 0) to (100, 0), of length 100. *)
Lemma smooth_curve_radius_witness :
  ¬ isSelfLink {| x := 0; y := 0 |} {| x := 100; y := 0 |}
      (IdNumber 1) (IdNumber 2)
  ∧ buildLinkPathDefinition sampleDecimalText directionNames
      {| x := 0; y := 0 |} {| x := 100; y := 0 |} (Some CURVE_SMOOTH) []
      (IdNumber 1) (IdNumber 2) None
    = Some "M0,-3L90,-3 A100,100 0 0,1 0,-3".
Proof.
  split; [ exact example_not_self_link | ].
  destruct (smooth_curve_radius sampleDecimalText directionNames
              {| x := 0; y := 0 |} {| x := 100; y := 0 |} []
              (IdNumber 1) (IdNumber 2) None example_not_self_link)
    as [Hp Hd].
  rewrite Hp. example_path. rewrite Hd. unfold distance. cbn [x y fst snd].
  replace ((100 - 0)² + (0 - 0)²) with (100²) by (unfold Rsqr; lra).
  rewrite sqrt_Rsqr by lra.
  str_value (0 + 0) 0%Z. str_value (0 + -3) (-3)%Z.
  str_value (0 + 0 + 0.9 * (100 + 0 - (0 + 0))) 90%Z.
  str_value (0 + -3 + 0.9 * (0 + -3 - (0 + -3))) (-3)%Z.
  str_value 0 0%Z. str_value (-3) (-3)%Z. str_value 100 100%Z. by vm_compute.
Defined.

(** C7 at the link from (0, 0) to (100, 0) through (50, 50). *)
Lemma regular_link_shape_witness :
  (forall r, isNumberLiteral (sampleDecimalText r) = true)
  ∧ ¬ isSelfLink {| x := 0; y := 0 |} {| x := 100; y := 0 |}
        (IdNumber 1) (IdNumber 2)
  ∧ exists (out : string) (arcs : list pathCommand),
      buildLinkPathDefinition sampleDecimalText directionNames
        {| x := 0; y := 0 |} {| x := 100; y := 0 |} None
        [{| x := 50; y := 50 |}] (IdNumber 1) (IdNumber 2) None
      = Some out
      ∧ parsePath out = Some (MoveTo "0" "-3" :: LineTo "90" "-3" :: arcs)
      ∧ length arcs = 2%nat.
Proof.
  split; [ exact sampleDecimalText_literal | ].
  split; [ exact example_not_self_link | ].
  destruct (regular_link_shape sampleDecimalText directionNames
              {| x := 0; y := 0 |} {| x := 100; y := 0 |} None
              [{| x := 50; y := 50 |}] (IdNumber 1) (IdNumber 2) None
              sampleDecimalText_literal example_not_self_link)
    as (out & arcs & Hout & Hparse & Hlen & _).
  exists out, arcs. split; [ exact Hout | split; [ | exact Hlen ] ].
  rewrite Hparse. rewrite normalOffset_example. unfold ninetyPercent.
  cbn [x y fst snd].
  str_value (0 + 0) 0%Z. str_value (0 + -3) (-3)%Z.
  str_value (0 + 0 + 0.9 * (100 + 0 - (0 + 0))) 90%Z.
  str_value (0 + -3 + 0.9 * (0 + -3 - (0 + -3))) (-3)%Z. by vm_compute.
Defined.

(** The same at two nodes both at (10, 20). *)
Lemma coincident_endpoints_path_witness :
  (forall r, isNumberLiteral (sampleDecimalText r) = true)
  ∧ IdNumber 1 ≠ IdNumber 2
  ∧ exists (out : string),
      buildLinkPathDefinition sampleDecimalText directionNames
        {| x := 10; y := 20 |} {| x := 10; y := 20 |} None []
        (IdNumber 1) (IdNumber 2) None
      = Some out
      ∧ wellFormedPath out = true
      ∧ out = "M13,20L13,20 A0,0 0 0,1 3,0".
Proof.
  assert (Hid : IdNumber 1 ≠ IdNumber 2) by (intros [= H]; lra).
  split; [ exact sampleDecimalText_literal | split; [ exact Hid | ] ].
  destruct (coincident_endpoints_path sampleDecimalText directionNames
              {| x := 10; y := 20 |} None [] (IdNumber 1) (IdNumber 2) None
              sampleDecimalText_literal Hid)
    as (out & arcs & Hout & Hwf & _ & _ & Htext).
  exists out. split; [ exact Hout | split; [ exact Hwf | ] ].
  rewrite Htext by reflexivity. cbn [x y].
  str_value (10 + 3) 13%Z. str_value 20 20%Z. by vm_compute.
Defined.

(** C3 at the link from (0, 0) to (100, 0). *)
Lemma link_offset_is_normal_witness :
  ¬ isSelfLink {| x := 0; y := 0 |} {| x := 100; y := 0 |}
      (IdNumber 1) (IdNumber 2)
  ∧ buildLinkPathDefinition sampleDecimalText directionNames
        {| x := 0; y := 0 |} {| x := 100; y := 0 |} None []
        (IdNumber 1) (IdNumber 2) None
    = Some "M0,-3L90,-3 A0,0 0 0,1 0,-3".
Proof.
  split; [ exact example_not_self_link | ].
  rewrite (proj1 (link_offset_is_normal sampleDecimalText directionNames
                    {| x := 0; y := 0 |} {| x := 100; y := 0 |} None []
                    (IdNumber 1) (IdNumber 2) None example_not_self_link)).
  cbn [x y]. rewrite decide_False by (intros [H _]; lra).
  replace (0 - 0) with 0 by lra. replace (100 - 0) with 100 by lra.
  rewrite Math_atan2_positive_axis by lra. rewrite sin_0, cos_0.
  example_path.
  unfold strategyFor, straightLineRadius. simpl.
  str_value (0 + 3 * 0) 0%Z. str_value (0 + - 3 * 1) (-3)%Z.
  str_value (0 + 3 * 0 + 0.9 * (100 + 3 * 0 - (0 + 3 * 0))) 90%Z.
  str_value (0 + - 3 * 1 + 0.9 * (0 + - 3 * 1 - (0 + - 3 * 1))) (-3)%Z.
  str_value 0 0%Z. str_value (-3) (-3)%Z. by vm_compute.
Defined.

End LinkPathClaims.

Import LinkPathClaims.

(** ** Further properties of the helper *)

Module LinkPathExtras.

#[local] Arguments normalOffset : simpl never.




Section Extras.

Variable decimalText : R -> string.
Variable SELF_LINK_DIRECTION : SelfLinkDirection.

Lemma regularPath_offset (f : radiusStrategy) (s t : Coords) (bps : list Coords)
    (ox oy : R) :
  normalOffset s t = (ox, oy) ->
  regularPath decimalText f s t bps
  = moveTo decimalText (x s + ox) (y s + oy)
    +:+ lineTo decimalText (ninetyPercent (x s + ox) (x t + ox))
                           (ninetyPercent (y s + oy) (y t + oy))
    +:+ String.concat "" (arcOfSegment decimalText f <$> segments s (bps ++ [t])).
Proof. intros H. unfold regularPath. by rewrite H. Qed.

(** X1. [buildLinkPathDefinition] returns a path for every source, target,
    line type, breakpoint list, pair of ids and direction: the point before
    each point of [restOfLinkPoints] exists, and what [getRadiusStrategy]
    returns for the valid type is always one of the three strategies, so
    neither the destructuring nor the call throws. *)
Theorem buildLinkPathDefinition_returns (s t : Coords) (type : option string)
    (bps : list Coords) (sid tid : nodeId) (dir : option string) :
  exists out : string,
    buildLinkPathDefinition decimalText SELF_LINK_DIRECTION s t type bps sid tid dir
    = Some out.
Proof.
  destruct (decide (isSelfLink s t sid tid)) as [(-> & Hx & Hy) | Hns].
  - destruct s as [sx sy], t as [tx ty]. simpl in Hx, Hy. subst.
    rewrite self_link_path. eauto.
  - rewrite regular_link_path by done. eauto.
Qed.


Lemma arcsOfPath_regular (s t : Coords) (type : option string)
    (bps : list Coords) (sid tid : nodeId) (dir : option string) :
  (forall r, isNumberLiteral (decimalText r) = true) ->
  ¬ isSelfLink s t sid tid ->
  arcsOfPath (buildLinkPathDefinition decimalText SELF_LINK_DIRECTION s t type
                bps sid tid dir)
  = Some (arcCommand decimalText (strategyFor (default STRAIGHT type))
          <$> segments s (bps ++ [t])).
Proof.
  intros Hd Hns. rewrite regular_link_path by done. unfold arcsOfPath.
  cbn [mbind option_bind]. rewrite parsePath_regularPath by done.
  unfold regularCommands. by destruct (normalOffset s t).
Qed.

(** X2. Every returned path is a well-formed path definition.  For a
    self-link it is a move to the point followed by one arc of radii 40, 30,
    rotation 45 or -45, both flags set, ending one unit away in x and in y.
    Otherwise it is a move to the offset source, a line to the point at 90%
    of the way to the offset target, and then |B| + 1 arcs and nothing
    else. *)
Theorem every_path_is_well_formed (s t : Coords) (type : option string)
    (bps : list Coords) (sid tid : nodeId) (dir : option string) :
  (forall r, isNumberLiteral (decimalText r) = true) ->
  exists out : string,
    buildLinkPathDefinition decimalText SELF_LINK_DIRECTION s t type bps sid tid dir
    = Some out
    ∧ wellFormedPath out = true
    ∧ (isSelfLink s t sid tid ->
       exists (rot : string) (dx dy : R),
         (rot = "45" ∨ rot = "-45") ∧ (dx = 1 ∨ dx = -1) ∧ (dy = 1 ∨ dy = -1)
         ∧ parsePath out
           = Some [ MoveTo (str decimalText (x s)) (str decimalText (y s));
                    ArcTo "40" "30" rot true true
                          (str decimalText (x s + dx))
                          (str decimalText (y s + dy)) ])
    ∧ (¬ isSelfLink s t sid tid ->
       exists arcs : list pathCommand,
         parsePath out
         = Some (MoveTo (str decimalText (x s + (normalOffset s t).1))
                        (str decimalText (y s + (normalOffset s t).2))
                 :: LineTo (str decimalText
                              (ninetyPercent (x s + (normalOffset s t).1)
                                             (x t + (normalOffset s t).1)))
                           (str decimalText
                              (ninetyPercent (y s + (normalOffset s t).2)
                                             (y t + (normalOffset s t).2)))
                 :: arcs)
         ∧ length arcs = (length bps + 1)%nat
         ∧ Forall (fun cmd => exists r ex ey,
                     cmd = ArcTo r r "0" false true ex ey) arcs).
Proof.
  intros Hd.
  destruct (decide (isSelfLink s t sid tid)) as [Hself | Hns].
  - assert (Hrot : forall c rot dx dy,
              rot = "45" ∨ rot = "-45" -> (dx = 1 ∨ dx = -1) ->
              (dy = 1 ∨ dy = -1) ->
              wellFormedPath (selfLinkPath decimalText c rot dx dy) = true
              ∧ exists (rot' : string) (dx' dy' : R),
                  (rot' = "45" ∨ rot' = "-45") ∧ (dx' = 1 ∨ dx' = -1)
                  ∧ (dy' = 1 ∨ dy' = -1)
                  ∧ parsePath (selfLinkPath decimalText c rot dx dy)
                    = Some [ MoveTo (str decimalText (x c)) (str decimalText (y c));
                             ArcTo "40" "30" rot' true true
                                   (str decimalText (x c + dx'))
                                   (str decimalText (y c + dy')) ]).
    { intros c rot dx dy Hr Hx Hy. unfold wellFormedPath.
      rewrite parsePath_selfLinkPath by done. split; [ done | ].
      by exists rot, dx, dy. }
    pose proof Hself as (-> & Hx & Hy).
    destruct s as [sx sy], t as [tx ty]. simpl in Hx, Hy. subst.
    rewrite self_link_path.
    repeat case_decide;
      (edestruct Hrot as (Hw & Hparse);
       [ | | | eexists; split; [ reflexivity | split; [ exact Hw | ] ];
               split; [ intros _; exact Hparse | intros Hn; by destruct Hn ] ]);
      auto.
  - exists (regularPath decimalText (strategyFor (default STRAIGHT type)) s t bps).
    assert (Hp : parsePath (regularPath decimalText
                              (strategyFor (default STRAIGHT type)) s t bps)
                 = Some (MoveTo (str decimalText (x s + (normalOffset s t).1))
                                (str decimalText (y s + (normalOffset s t).2))
                         :: LineTo (str decimalText
                                      (ninetyPercent (x s + (normalOffset s t).1)
                                                     (x t + (normalOffset s t).1)))
                                   (str decimalText
                                      (ninetyPercent (y s + (normalOffset s t).2)
                                                     (y t + (normalOffset s t).2)))
                         :: (arcCommand decimalText
                               (strategyFor (default STRAIGHT type))
                             <$> segments s (bps ++ [t])))).
    { rewrite parsePath_regularPath by done. unfold regularCommands.
      by destruct (normalOffset s t). }
    split; [ by apply regular_link_path | ]. split; [ | split; [ done | ] ].
    + unfold wellFormedPath. by rewrite Hp.
    + intros _. eexists. split; [ exact Hp | ]. split.
      * by rewrite length_fmap, segments_length.
      * apply Forall_fmap, Forall_forall. intros seg _.
        unfold arcCommand. simpl. eauto.
Qed.

(** X4. The offset of an axis-aligned link: (0, -3) when it points right,
    (0, 3) when it points left, (3, 0) when it points down (growing y) and
    (-3, 0) when it points up. *)
Theorem axis_aligned_links_offset (s t : Coords) (type : option string)
    (bps : list Coords) (sid tid : nodeId) (dir : option string) (ox oy : R) :
  (y s = y t ∧ x s < x t ∧ ox = 0 ∧ oy = -3)
  ∨ (y s = y t ∧ x t < x s ∧ ox = 0 ∧ oy = 3)
  ∨ (x s = x t ∧ y s < y t ∧ ox = 3 ∧ oy = 0)
  ∨ (x s = x t ∧ y t < y s ∧ ox = -3 ∧ oy = 0) ->
  buildLinkPathDefinition decimalText SELF_LINK_DIRECTION s t type bps sid tid dir
  = Some (moveTo decimalText (x s + ox) (y s + oy)
          +:+ lineTo decimalText (ninetyPercent (x s + ox) (x t + ox))
                                 (ninetyPercent (y s + oy) (y t + oy))
          +:+ String.concat ""
                (arcOfSegment decimalText (strategyFor (default STRAIGHT type))
                 <$> segments s (bps ++ [t]))).
Proof.
  intros Hcase.
  assert (Hne : x s ≠ x t ∨ y s ≠ y t)
    by (destruct Hcase as [H | [H | [H | H]]]; [ left | left | right | right ]; lra).
  rewrite regular_link_path by (unfold isSelfLink; tauto).
  f_equal. apply regularPath_offset.
  unfold normalOffset, offsetAt, LINE_POS_OFFSET.
  destruct Hcase as [H | [H | [H | H]]]; destruct H as (H1 & H2 & -> & ->).
  - rewrite angleBetweenPoints_distinct by (left; lra).
    replace (y t - y s) with 0 by lra.
    rewrite Math_atan2_positive_axis by lra. rewrite sin_0, cos_0. f_equal; lra.
  - rewrite angleBetweenPoints_distinct by (left; lra).
    replace (y t - y s) with 0 by lra.
    assert (Hpi : Math_atan2 0 (x t - x s) = PI).
    { unfold Math_atan2. rewrite decide_False by lra. rewrite decide_True by lra.
      rewrite decide_False by lra.
      replace (0 / (x t - x s)) with 0 by (field; lra). rewrite atan_0. lra. }
    rewrite Hpi, sin_PI, cos_PI. f_equal; lra.
  - unfold angleBetweenPoints. rewrite decide_True by done.
    rewrite decide_False by lra. rewrite sin_PI2, cos_PI2. f_equal; lra.
  - unfold angleBetweenPoints. rewrite decide_True by done.
    rewrite decide_True by lra.
    replace (- PI / 2) with (- (PI / 2)) by lra.
    rewrite sin_neg, cos_neg, sin_PI2, cos_PI2. f_equal; lra.
Qed.

(** X5. A self-link ignores the line type and the breakpoints; a link
    whose endpoints are at different coordinates ignores both ids and the
    self-link direction (so a link from a node to itself is drawn as a
    regular link as soon as the two coordinates differ). *)
Theorem arguments_that_do_not_matter :
  (forall (c : Coords) (id : nodeId) (dir : option string)
          (type type' : option string) (bps bps' : list Coords),
     buildLinkPathDefinition decimalText SELF_LINK_DIRECTION c c type bps id id dir
     = buildLinkPathDefinition decimalText SELF_LINK_DIRECTION c c type' bps' id id
         dir)
  ∧ (forall (s t : Coords) (type : option string) (bps : list Coords)
            (sid tid sid' tid' : nodeId) (dir dir' : option string),
       x s ≠ x t ∨ y s ≠ y t ->
       buildLinkPathDefinition decimalText SELF_LINK_DIRECTION s t type bps
         sid tid dir
       = buildLinkPathDefinition decimalText SELF_LINK_DIRECTION s t type bps
           sid' tid' dir').
Proof.
  split.
  - intros. by rewrite !self_link_path.
  - intros s t type bps sid tid sid' tid' dir dir' Hne.
    by rewrite !regular_link_path by (unfold isSelfLink; tauto).
Qed.

(** X6. Between two different nodes, the arcs of the link from s to t
    through the breakpoints b :: B are the arc of the link from s to b
    followed by the arcs of the link from b to t through B. *)
Theorem arcs_compose_along_breakpoints (s b t : Coords) (type : option string)
    (bps : list Coords) (sid tid : nodeId) (dir : option string) :
  (forall r, isNumberLiteral (decimalText r) = true) ->
  sid ≠ tid ->
  exists (first : pathCommand) (rest : list pathCommand),
    arcsOfPath (buildLinkPathDefinition decimalText SELF_LINK_DIRECTION s b type
                  [] sid tid dir) = Some [first]
    ∧ arcsOfPath (buildLinkPathDefinition decimalText SELF_LINK_DIRECTION b t type
                    bps sid tid dir) = Some rest
    ∧ arcsOfPath (buildLinkPathDefinition decimalText SELF_LINK_DIRECTION s t type
                    (b :: bps) sid tid dir) = Some (first :: rest).
Proof.
  intros Hd Hid.
  assert (Hns : forall p q, ¬ isSelfLink p q sid tid)
    by (unfold isSelfLink; tauto).
  rewrite !arcsOfPath_regular by done.
  eexists _, _. split; [ reflexivity | split; reflexivity ].
Qed.

(** X7. For a link that is not a self-link, the arc of each segment is
    printed with the radius of the strategy (both radii equal), rotation 0,
    flags 0 and 1, and as its end point the offset (3·sin θ, -3·cos θ) of
    that segment, θ being the angle of the segment: a point at distance 3
    from the origin, wherever the segment is. *)
Theorem arcs_end_at_their_offsets (s t : Coords) (type : option string)
    (bps : list Coords) (sid tid : nodeId) (dir : option string) :
  (forall r, isNumberLiteral (decimalText r) = true) ->
  ¬ isSelfLink s t sid tid ->
  arcsOfPath (buildLinkPathDefinition decimalText SELF_LINK_DIRECTION s t type
                bps sid tid dir)
  = Some ((fun seg =>
             let theta := angleBetweenPoints (x seg.1) (y seg.1)
                            (x seg.2) (y seg.2) in
             let r := str decimalText
                        (arcRadius (strategyFor (default STRAIGHT type)) seg) in
             ArcTo r r "0" false true
                   (str decimalText (3 * sin theta))
                   (str decimalText (- 3 * cos theta)))
          <$> segments s (bps ++ [t]))
  ∧ (forall theta, sqrt ((3 * sin theta)² + (- 3 * cos theta)²) = 3).
Proof.
  intros Hd Hns. split.
  - by rewrite arcsOfPath_regular.
  - intros theta. apply (offsetAt_length theta).
Qed.

End Extras.

(** X8. [smoothCurveRadius] is the distance between its two points: it is
    not negative, it is symmetric in the two points, it is 0 exactly when
    the points coincide, and its square is Δx² + Δy². *)
Theorem smoothCurveRadius_is_a_distance (x1 y1 x2 y2 : R) :
  0 <= smoothCurveRadius x1 y1 x2 y2
  ∧ smoothCurveRadius x1 y1 x2 y2 = smoothCurveRadius x2 y2 x1 y1
  ∧ (smoothCurveRadius x1 y1 x2 y2 = 0 <-> x1 = x2 ∧ y1 = y2)
  ∧ (smoothCurveRadius x1 y1 x2 y2)² = (x2 - x1)² + (y2 - y1)².
Proof.
  unfold smoothCurveRadius. cbv zeta.
  change ((x2 - x1) * (x2 - x1)) with ((x2 - x1)²).
  change ((y2 - y1) * (y2 - y1)) with ((y2 - y1)²).
  change ((x1 - x2) * (x1 - x2)) with ((x1 - x2)²).
  change ((y1 - y2) * (y1 - y2)) with ((y1 - y2)²).
  assert (Hnn : 0 <= (x2 - x1)² + (y2 - y1)²).
  { pose proof (Rle_0_sqr (x2 - x1)). pose proof (Rle_0_sqr (y2 - y1)). lra. }
  split; [ apply sqrt_pos | ]. split; [ | split; [ split | ] ].
  - f_equal. unfold Rsqr. ring.
  - intros H0. apply sqrt_eq_0 in H0; [ | done ].
    apply Rplus_sqr_eq_0 in H0. lra.
  - intros [-> ->]. replace ((x2 - x2)² + (y2 - y2)²) with 0
      by (unfold Rsqr; ring).
    apply sqrt_0.
  - by rewrite Rsqr_sqrt.
Qed.

(** X9. [angleBetweenPoints] lies in (-π, π]; for two distinct points it
    is the direction of the vector from the first to the second (the vector
    is its length times (cos θ, sin θ)), and for coincident points it is
    π/2. *)
Theorem angleBetweenPoints_is_the_direction (x1 y1 x2 y2 : R) :
  let theta := angleBetweenPoints x1 y1 x2 y2 in
  - PI < theta <= PI
  ∧ (x1 ≠ x2 ∨ y1 ≠ y2 ->
     distance x1 y1 x2 y2 * cos theta = x2 - x1
     ∧ distance x1 y1 x2 y2 * sin theta = y2 - y1)
  ∧ (x1 = x2 ∧ y1 = y2 -> theta = PI / 2).
Proof.
  intros theta. subst theta. split; [ | split ].
  - unfold angleBetweenPoints. pose proof PI_RGT_0.
    repeat case_decide; try lra. apply Math_atan2_range.
  - intros Hne. rewrite angleBetweenPoints_distinct by done. unfold distance.
    apply Math_atan2_direction. destruct Hne; [ left | right ]; lra.
  - intros [-> ->]. apply angleBetweenPoints_coincident.
Qed.

(** X10. [getRadiusStrategy] called on a name that no object inherits
    returns the strategy of that name when it is CURVE_SMOOTH or CURVE_FULL
    and the straight-line strategy otherwise (the fallback for a missing
    key); called on a name inherited from [Object.prototype] it returns
    that built-in, not the fallback. *)
Theorem getRadiusStrategy_missing_key (type : string) :
  (type ∉ Object_prototype_keys ->
   getRadiusStrategy (TypeName type)
   = RadiusFn (if decide (type = CURVE_SMOOTH) then smoothCurveRadius
               else if decide (type = CURVE_FULL) then fullCurveRadius
               else straightLineRadius))
  ∧ (type ∈ Object_prototype_keys ->
     getRadiusStrategy (TypeName type) = BuiltinFn type).
Proof.
  split.
  - intros Hout.
    destruct (decide (type = CURVE_SMOOTH)) as [-> | Hs]; [ reflexivity | ].
    destruct (decide (type = CURVE_FULL)) as [-> | Hf]; [ reflexivity | ].
    destruct (decide (type = STRAIGHT)) as [-> | Hl]; [ reflexivity | ].
    unfold getRadiusStrategy, getProp. cbn [toPropertyKey].
    assert (Hnone : RADIUS_STRATEGIES !! type = None).
    { unfold RADIUS_STRATEGIES. rewrite !lookup_insert_ne by done.
      by apply lookup_singleton_ne. }
    rewrite Hnone, decide_False by done. reflexivity.
  - intros Hin. apply list_elem_of_In in Hin. simpl in Hin.
    repeat (destruct Hin as [<- | Hin]; [ vm_compute; reflexivity | ]).
    destruct Hin.
Qed.

(** X2 for the sample decimal text, at a link with one breakpoint. *)
Lemma every_path_is_well_formed_witness :
  (forall r, isNumberLiteral (sampleDecimalText r) = true)
  ∧ exists (out : string),
      buildLinkPathDefinition sampleDecimalText directionNames
        {| x := 0; y := 0 |} {| x := 100; y := 0 |} (Some CURVE_SMOOTH)
        [{| x := 50; y := 50 |}] (IdNumber 1) (IdNumber 2) None
      = Some out
      ∧ wellFormedPath out = true
      ∧ exists arcs : list pathCommand,
          parsePath out = Some (MoveTo "0" "-3" :: LineTo "90" "-3" :: arcs)
          ∧ length arcs = 2%nat.
Proof.
  split; [ exact sampleDecimalText_literal | ].
  destruct (every_path_is_well_formed sampleDecimalText directionNames
              {| x := 0; y := 0 |} {| x := 100; y := 0 |} (Some CURVE_SMOOTH)
              [{| x := 50; y := 50 |}] (IdNumber 1) (IdNumber 2) None
              sampleDecimalText_literal)
    as (out & Hout & Hwf & _ & Hreg).
  destruct (Hreg example_not_self_link) as (arcs & Hparse & Hlen & _).
  exists out. split; [ exact Hout | split; [ exact Hwf | ] ].
  exists arcs. split; [ | exact Hlen ].
  rewrite Hparse. rewrite normalOffset_example. unfold ninetyPercent.
  cbn [x y fst snd].
  str_value (0 + 0) 0%Z. str_value (0 + -3) (-3)%Z.
  str_value (0 + 0 + 0.9 * (100 + 0 - (0 + 0))) 90%Z.
  str_value (0 + -3 + 0.9 * (0 + -3 - (0 + -3))) (-3)%Z. by vm_compute.
Defined.

Lemma example_distinct :
  x {| x := 0; y := 0 |} ≠ x {| x := 100; y := 0 |}
  ∨ y {| x := 0; y := 0 |} ≠ y {| x := 100; y := 0 |}.
Proof. left. simpl. lra. Qed.


(** X4 at the link from (0, 0) to (100, 0), which points right. *)
Lemma axis_aligned_links_offset_witness :
  ((y {| x := 0; y := 0 |} = y {| x := 100; y := 0 |}
    ∧ x {| x := 0; y := 0 |} < x {| x := 100; y := 0 |} ∧ 0 = 0 ∧ -3 = -3)
   ∨ (y {| x := 0; y := 0 |} = y {| x := 100; y := 0 |}
      ∧ x {| x := 100; y := 0 |} < x {| x := 0; y := 0 |} ∧ 0 = 0 ∧ -3 = 3)
   ∨ (x {| x := 0; y := 0 |} = x {| x := 100; y := 0 |}
      ∧ y {| x := 0; y := 0 |} < y {| x := 100; y := 0 |} ∧ 0 = 3 ∧ -3 = 0)
   ∨ (x {| x := 0; y := 0 |} = x {| x := 100; y := 0 |}
      ∧ y {| x := 100; y := 0 |} < y {| x := 0; y := 0 |} ∧ 0 = -3 ∧ -3 = 0))
  ∧ buildLinkPathDefinition sampleDecimalText directionNames
      {| x := 0; y := 0 |} {| x := 100; y := 0 |} None []
      (IdNumber 1) (IdNumber 2) None
    = Some "M0,-3L90,-3 A0,0 0 0,1 0,-3".
Proof.
  assert (H : (y {| x := 0; y := 0 |} = y {| x := 100; y := 0 |}
    ∧ x {| x := 0; y := 0 |} < x {| x := 100; y := 0 |} ∧ 0 = 0 ∧ -3 = -3)
   ∨ (y {| x := 0; y := 0 |} = y {| x := 100; y := 0 |}
      ∧ x {| x := 100; y := 0 |} < x {| x := 0; y := 0 |} ∧ 0 = 0 ∧ -3 = 3)
   ∨ (x {| x := 0; y := 0 |} = x {| x := 100; y := 0 |}
      ∧ y {| x := 0; y := 0 |} < y {| x := 100; y := 0 |} ∧ 0 = 3 ∧ -3 = 0)
   ∨ (x {| x := 0; y := 0 |} = x {| x := 100; y := 0 |}
      ∧ y {| x := 100; y := 0 |} < y {| x := 0; y := 0 |} ∧ 0 = -3 ∧ -3 = 0)).
  { left. simpl. repeat split; lra. }
  split; [ exact H | ].
  rewrite (axis_aligned_links_offset sampleDecimalText directionNames
             {| x := 0; y := 0 |} {| x := 100; y := 0 |} None []
             (IdNumber 1) (IdNumber 2) None 0 (-3) H).
  example_path. unfold strategyFor, straightLineRadius. simpl.
  str_value (0 + 0) 0%Z. str_value (0 + -3) (-3)%Z.
  str_value (0 + 0 + 0.9 * (100 + 0 - (0 + 0))) 90%Z.
  str_value (0 + -3 + 0.9 * (0 + -3 - (0 + -3))) (-3)%Z.
  str_value 0 0%Z. str_value (-3) (-3)%Z. by vm_compute.
Defined.

(** X5 at the link from (0, 0) to (100, 0): the same id at both ends
    changes nothing. *)
Lemma arguments_that_do_not_matter_witness :
  (x {| x := 0; y := 0 |} ≠ x {| x := 100; y := 0 |}
   ∨ y {| x := 0; y := 0 |} ≠ y {| x := 100; y := 0 |})
  ∧ buildLinkPathDefinition sampleDecimalText directionNames
      {| x := 0; y := 0 |} {| x := 100; y := 0 |} None []
      (IdNumber 1) (IdNumber 1) (Some "TOP_LEFT")
    = buildLinkPathDefinition sampleDecimalText directionNames
        {| x := 0; y := 0 |} {| x := 100; y := 0 |} None []
        (IdString "a") (IdString "b") None.
Proof.
  split; [ exact example_distinct | ].
  exact (proj2 (arguments_that_do_not_matter sampleDecimalText directionNames)
           {| x := 0; y := 0 |} {| x := 100; y := 0 |} None []
           (IdNumber 1) (IdNumber 1) (IdString "a") (IdString "b")
           (Some "TOP_LEFT") None example_distinct).
Defined.

Lemma example_ids : IdNumber 1 ≠ IdNumber 2.
Proof. intros [= H]. lra. Qed.

(** X6 at the link from (0, 0) to (100, 0) through (50, 50). *)
Lemma arcs_compose_along_breakpoints_witness :
  (forall r, isNumberLiteral (sampleDecimalText r) = true)
  ∧ IdNumber 1 ≠ IdNumber 2
  ∧ exists (first : pathCommand) (rest : list pathCommand),
      arcsOfPath (buildLinkPathDefinition sampleDecimalText directionNames
                    {| x := 0; y := 0 |} {| x := 50; y := 50 |} None []
                    (IdNumber 1) (IdNumber 2) None) = Some [first]
      ∧ arcsOfPath (buildLinkPathDefinition sampleDecimalText directionNames
                      {| x := 50; y := 50 |} {| x := 100; y := 0 |} None []
                      (IdNumber 1) (IdNumber 2) None) = Some rest
      ∧ arcsOfPath (buildLinkPathDefinition sampleDecimalText directionNames
                      {| x := 0; y := 0 |} {| x := 100; y := 0 |} None
                      [{| x := 50; y := 50 |}] (IdNumber 1) (IdNumber 2) None)
        = Some (first :: rest).
Proof.
  split; [ exact sampleDecimalText_literal | split; [ exact example_ids | ] ].
  exact (arcs_compose_along_breakpoints sampleDecimalText directionNames
           {| x := 0; y := 0 |} {| x := 50; y := 50 |} {| x := 100; y := 0 |}
           None [] (IdNumber 1) (IdNumber 2) None
           sampleDecimalText_literal example_ids).
Defined.

(** X7 at the link from (0, 0) to (100, 0): its arc ends at (0, -3). *)
Lemma arcs_end_at_their_offsets_witness :
  (forall r, isNumberLiteral (sampleDecimalText r) = true)
  ∧ ¬ isSelfLink {| x := 0; y := 0 |} {| x := 100; y := 0 |}
        (IdNumber 1) (IdNumber 2)
  ∧ arcsOfPath (buildLinkPathDefinition sampleDecimalText directionNames
                  {| x := 0; y := 0 |} {| x := 100; y := 0 |} None []
                  (IdNumber 1) (IdNumber 2) None)
    = Some [ArcTo "0" "0" "0" false true "0" "-3"].
Proof.
  split; [ exact sampleDecimalText_literal | ].
  split; [ exact example_not_self_link | ].
  rewrite (proj1 (arcs_end_at_their_offsets sampleDecimalText directionNames
                    {| x := 0; y := 0 |} {| x := 100; y := 0 |} None []
                    (IdNumber 1) (IdNumber 2) None
                    sampleDecimalText_literal example_not_self_link)).
  unfold segments, arcRadius. cbn [x y fst snd app zip zip_with fmap list_fmap].
  rewrite normalOffset_example.
  rewrite angleBetweenPoints_distinct by (left; lra).
  replace (0 - 0) with 0 by lra. replace (100 - 0) with 100 by lra.
  rewrite Math_atan2_positive_axis by lra. rewrite sin_0, cos_0.
  unfold strategyFor, straightLineRadius. simpl.
  str_value 0 0%Z. str_value (3 * 0) 0%Z. str_value (- 3 * 1) (-3)%Z.
  by vm_compute.
Defined.

(** X8 at two coincident points. *)
Lemma smoothCurveRadius_is_a_distance_witness :
  (7 = 7 ∧ 9 = 9) ∧ smoothCurveRadius 7 9 7 9 = 0.
Proof.
  assert (H : 7 = 7 ∧ 9 = 9) by (split; reflexivity).
  split; [ exact H | ].
  exact (proj2 (proj1 (proj2 (proj2 (smoothCurveRadius_is_a_distance 7 9 7 9)))) H).
Defined.

(** X9 at the points (0, 0) and (3, 4). *)
Lemma angleBetweenPoints_is_the_direction_witness :
  (0 ≠ 3 ∨ 0 ≠ 4)
  ∧ distance 0 0 3 4 * cos (angleBetweenPoints 0 0 3 4) = 3 - 0
  ∧ distance 0 0 3 4 * sin (angleBetweenPoints 0 0 3 4) = 4 - 0.
Proof.
  assert (H : 0 ≠ 3 ∨ 0 ≠ 4) by (left; lra).
  split; [ exact H | ].
  exact (proj1 (proj2 (angleBetweenPoints_is_the_direction 0 0 3 4)) H).
Defined.

(** X10 at the names ZIGZAG and toString. *)
Lemma getRadiusStrategy_missing_key_witness :
  ("ZIGZAG" ∉ Object_prototype_keys)
  ∧ getRadiusStrategy (TypeName "ZIGZAG") = RadiusFn straightLineRadius
  ∧ ("toString" ∈ Object_prototype_keys)
  ∧ getRadiusStrategy (TypeName "toString") = BuiltinFn "toString".
Proof.
  assert (H1 : "ZIGZAG" ∉ Object_prototype_keys)
    by (apply (bool_decide_unpack _); vm_compute; exact I).
  assert (H2 : "toString" ∈ Object_prototype_keys)
    by (apply (bool_decide_unpack _); vm_compute; exact I).
  split; [ exact H1 | split; [ | split; [ exact H2 | ] ] ].
  - exact (proj1 (getRadiusStrategy_missing_key "ZIGZAG") H1).
  - exact (proj2 (getRadiusStrategy_missing_key "toString") H2).
Defined.

End LinkPathExtras.
